(** * facefusion.face_analyser: the cached face query layer

    A shallow embedding of [src/facefusion/face_analyser.py].

    - Python exceptions are values of [result]; a function that touches
      module level state ([facefusion.globals], the frame cache, the
      analyser handle, the detector) is a [Py] computation that threads a
      [World].
    - A [Face] is an object whose attributes may be absent, as [hasattr] in
      [find_similar_faces] expects.
    - The constructors of the detector and of the recogniser, the detector's
      [detect], the recogniser and [numpy.linalg.norm] are parameters of the
      analyser, and so are the two functions of [facefusion.face_cache].
      What [detect] returns is [None] when no face is found and the array of
      the detections otherwise, as OpenCV has it.
    - Floating point values are taken as the rationals they denote: the
      comparisons and the order of the operations are those of the code.
      Rounding is modelled for line 73 alone, in [float32], where the
      operations are those of IEEE 754 binary32. *)

From Stdlib Require Import ZArith QArith List String Lia Lqa Permutation Sorted.
From Stdlib Require SpecFloat.
From stdpp Require Import base option list gmap strings countable.

Local Open Scope string_scope.
Local Open Scope Z_scope.

(** ** Python exceptions *)

Inductive exn : Type :=
  | AttributeError
  | ValueError
  | IndexError
  | TypeError
  | RuntimeError.

Inductive result (A : Type) : Type :=
  | Ok (a : A)
  | Raise (e : exn).

Arguments Ok {A} a.
Arguments Raise {A} e.

Definition rbind {A B : Type} (r : result A) (k : A -> result B) : result B :=
  match r with
  | Ok a => k a
  | Raise e => Raise e
  end.

Global Instance result_bind : MBind result := fun A B k r => rbind r k.
Global Instance result_ret : MRet result := @Ok.

(** [for x in l: ...] collecting one value per iteration; the first
    exception leaves the loop. *)
Fixpoint mapM {A B : Type} (f : A -> result B) (l : list A) : result (list B) :=
  match l with
  | [] => Ok []
  | x :: xs =>
      y ← f x;
      ys ← mapM f xs;
      Ok (y :: ys)
  end.

(** [for x in l: body] over an accumulator that the body may extend. *)
Fixpoint for_each {A S : Type} (l : list A) (body : A -> S -> result S) (s : S)
  : result S :=
  match l with
  | [] => Ok s
  | x :: xs => s' ← body x s; for_each xs body s'
  end.

(** ** Data model *)

Definition Embedding : Type := list Q.
Definition Kps : Type := list (list Q).

(** A [Face] is a Python object: every attribute may be absent, and reading
    an absent attribute raises [AttributeError] ([hasattr] tests it). *)
Record Face : Type := mkFace {
  bbox : option (list Q);
  kps : option Kps;
  score : option Q;
  embedding : option Embedding;
  normed_embedding : option Embedding;
  gender : option Z;
  age : option Z
}.

Definition getattr {A : Type} (field : Face -> option A) (face : Face) : result A :=
  match field face with
  | Some v => Ok v
  | None => Raise AttributeError
  end.

Definition hasattr {A : Type} (field : Face -> option A) (face : Face) : bool :=
  match field face with
  | Some _ => true
  | None => false
  end.

(** A frame is an image: an array of shape (height, width, channels). *)
Record Frame : Type := mkFrame {
  frame_height : nat;
  frame_width : nat;
  frame_channels : nat;
  pixels : list Z
}.

(** [frame.shape] *)
Definition shape (frame : Frame) : nat * nat * nat :=
  (frame_height frame, frame_width frame, frame_channels frame).

Global Instance Frame_eq_dec : EqDecision Frame.
Proof. solve_decision. Defined.

Global Instance Frame_countable : Countable Frame.
Proof.
  refine (inj_countable'
            (fun f => (frame_height f, frame_width f, frame_channels f, pixels f))
            (fun p => mkFrame p.1.1.1 p.1.1.2 p.1.2 p.2) _).
  intros []; reflexivity.
Defined.

(** [facefusion.globals], as far as this module reads it. *)
Record Globals : Type := mkGlobals {
  face_analyser_direction : option string;
  face_analyser_age : option string;
  face_analyser_gender : option string
}.

(** ** The models and the analyser handle

    [FACE_ANALYSER] is the lazily built pair of the detector and the
    recogniser.  The two constructors and the download are parameters; the
    lock around the construction is not modelled, the calls are sequential. *)

Section Handle.

(** [resolve_relative_path] and [conditional_download] of
    [facefusion.utilities]. *)
Variable resolve_relative_path : string -> string.
Variable conditional_download : string -> list (option string) -> result unit.

(** The detector and the recogniser, with their constructors
    [cv2.FaceDetectorYN.create(path, None, (0, 0))] and
    [onnxruntime.InferenceSession(path, providers = ...)]. *)
Variable Detector : Type.
Variable Session : Type.
Variable FaceDetectorYN_create :
  option string -> option string -> nat * nat -> result Detector.
Variable InferenceSession : option string -> list string -> result Session.

Definition MODELS : gmap string (gmap string string) :=
  {[ "face_recognition_arcface" :=
       {[ "url" := "https://huggingface.co/bluefoxcreation/insightface-retinaface-arcface-model/resolve/main/w600k_r50.onnx";
          "path" := resolve_relative_path "../.assets/models/w600k_r50.onnx" ]};
     "face_detection_yunet" :=
       {[ "url" := "https://github.com/opencv/opencv_zoo/raw/main/models/face_detection_yunet/face_detection_yunet_2023mar.onnx";
          "path" := resolve_relative_path "../.assets/models/face_detection_yunet_2023mar.onnx" ]} ]}.

(** [MODELS.get(name).get(key)]: [get] on a missing name gives [None], on
    which the second [get] raises. *)
Definition model_value (name key : string) : result (option string) :=
  match MODELS !! name with
  | Some value => Ok (value !! key)
  | None => Raise AttributeError
  end.

(** The dictionary with the keys 'face_detector' and 'face_recognition'. *)
Record Analyser : Type := mkAnalyser {
  face_detector : Detector;
  face_recognition : Session
}.

(** The state of the module and of [facefusion.globals] that these functions
    use, with a count of the calls of each constructor and a log of the
    downloads. *)
Record Runtime : Type := mkRuntime {
  FACE_ANALYSER : option Analyser;
  execution_providers : list string;
  skip_download : bool;
  detector_constructions : nat;
  session_constructions : nat;
  downloads : list (string * list (option string))
}.

Definition set_analyser (a : option Analyser) (s : Runtime) : Runtime :=
  mkRuntime a (execution_providers s) (skip_download s)
            (detector_constructions s) (session_constructions s) (downloads s).

Definition count_detector (s : Runtime) : Runtime :=
  mkRuntime (FACE_ANALYSER s) (execution_providers s) (skip_download s)
            (S (detector_constructions s)) (session_constructions s) (downloads s).

Definition count_session (s : Runtime) : Runtime :=
  mkRuntime (FACE_ANALYSER s) (execution_providers s) (skip_download s)
            (detector_constructions s) (S (session_constructions s)) (downloads s).

Definition log_download (directory : string) (urls : list (option string))
  (s : Runtime) : Runtime :=
  mkRuntime (FACE_ANALYSER s) (execution_providers s) (skip_download s)
            (detector_constructions s) (session_constructions s)
            ((directory, urls) :: downloads s).

Definition get_face_analyser (s : Runtime) : result Analyser * Runtime :=
  match FACE_ANALYSER s with
  | Some analyser => (Ok analyser, s)
  | None =>
      match model_value "face_detection_yunet" "path" with
      | Raise e => (Raise e, s)
      | Ok detector_path =>
          let s1 := count_detector s in
          match FaceDetectorYN_create detector_path None (0, 0)%nat with
          | Raise e => (Raise e, s1)
          | Ok detector =>
              match model_value "face_recognition_arcface" "path" with
              | Raise e => (Raise e, s1)
              | Ok session_path =>
                  let s2 := count_session s1 in
                  match InferenceSession session_path (execution_providers s2) with
                  | Raise e => (Raise e, s2)
                  | Ok session =>
                      let analyser := mkAnalyser detector session in
                      (Ok analyser, set_analyser (Some analyser) s2)
                  end
              end
          end
      end
  end.

Definition clear_face_analyser (s : Runtime) : result unit * Runtime :=
  (Ok tt, set_analyser None s).

Definition pre_check (s : Runtime) : result bool * Runtime :=
  if negb (skip_download s)
  then
    let download_directory_path := resolve_relative_path "../.assets/models" in
    match model_value "face_recognition_arcface" "url" with
    | Raise e => (Raise e, s)
    | Ok recognition_url =>
        match model_value "face_detection_yunet" "url" with
        | Raise e => (Raise e, s)
        | Ok detection_url =>
            let model_urls := [recognition_url; detection_url] in
            let s1 := log_download download_directory_path model_urls s in
            match conditional_download download_directory_path model_urls with
            | Raise e => (Raise e, s1)
            | Ok _ => (Ok true, s1)
            end
        end
    end
  else (Ok true, s).

End Handle.

(** The detector and the recogniser are objects of OpenCV and of ONNX
    Runtime: the module level state knows each by its identity, a number. *)
Definition DetectorObject : Type := nat.
Definition SessionObject : Type := nat.

(** The module level state: the frame cache, the configuration, a log of
    the frames handed to the detector (one entry per [detect] call), and the
    state of the analyser handle. *)
Record World : Type := mkWorld {
  FACES_CACHE : gmap Frame (list Face);
  globals : Globals;
  detector_calls : list Frame;
  runtime : Runtime DetectorObject SessionObject
}.

(** Computations over the world; the world survives an exception. *)
Definition Py (A : Type) : Type := World -> result A * World.

Definition ret {A : Type} (a : A) : Py A := fun w => (Ok a, w).
Definition raise {A : Type} (e : exn) : Py A := fun w => (Raise e, w).
Definition lift {A : Type} (r : result A) : Py A := fun w => (r, w).

Definition bind {A B : Type} (m : Py A) (k : A -> Py B) : Py B :=
  fun w =>
    match m w with
    | (Ok a, w') => k a w'
    | (Raise e, w') => (Raise e, w')
    end.

Global Instance Py_bind : MBind Py := fun A B k m => bind m k.
Global Instance Py_ret : MRet Py := @ret.

(** Truth value of a list, of an optional list and of an optional string:
    [None] and the empty value are false. *)
Definition truthy {A : Type} (l : list A) : bool :=
  match l with
  | [] => false
  | _ :: _ => true
  end.

Definition truthy_opt {A : Type} (o : option (list A)) : bool :=
  match o with
  | Some l => truthy l
  | None => false
  end.

Definition truthy_str (o : option string) : bool :=
  match o with
  | Some s => negb (String.eqb s "")
  | None => false
  end.

(** ** Numbers and sequences *)

Definition Qltb (x y : Q) : bool := negb (Qle_bool y x).

Definition Qnonzero (x : Q) : bool := negb (Qeq_bool x 0).

(** [a.any()] on a two-dimensional array: some entry is not zero. *)
Definition ndarray_any (a : list (list Q)) : bool :=
  existsb (existsb Qnonzero) a.

(** [l[start:stop]] for non-negative bounds; never raises. *)
Definition slice {A : Type} (start stop : nat) (l : list A) : list A :=
  firstn (stop - start) (skipn start l).

(** [l[i]] with Python's negative indices. *)
Definition getitem {A : Type} (l : list A) (i : Z) : result A :=
  let n := Z.of_nat (length l) in
  let j := if i <? 0 then i + n else i in
  if (j <? 0) || (n <=? j) then Raise IndexError
  else match l !! Z.to_nat j with
       | Some x => Ok x
       | None => Raise IndexError
       end.

(** [a.reshape((5, 2))] of a one-dimensional array. *)
Definition reshape_5_2 (a : list Q) : result Kps :=
  match a with
  | [a0; a1; a2; a3; a4; a5; a6; a7; a8; a9] =>
      Ok [[a0; a1]; [a2; a3]; [a4; a5]; [a6; a7]; [a8; a9]]
  | _ => Raise ValueError
  end.

(** [numpy.dot] of two one-dimensional arrays. *)
Fixpoint dot_sum (a b : list Q) : Q :=
  match a, b with
  | x :: a', y :: b' => (x * y + dot_sum a' b')%Q
  | _, _ => 0%Q
  end.

Definition numpy_dot (a b : Embedding) : result Q :=
  if Nat.eqb (length a) (length b) then Ok (dot_sum a b) else Raise ValueError.

(** [l.append(x)] *)
Definition append {A : Type} (l : list A) (x : A) : list A := (l ++ [x])%list.

(** ** Sorting

    [sorted(l, key = k, reverse = r)] computes the key of every element first,
    in order, and then sorts stably: elements with equal keys keep their
    original order, also when [reverse] is set. *)

Definition goes_after {A : Type} (reverse : bool) (p q : Q * A) : bool :=
  if reverse then Qltb p.1 q.1 else Qltb q.1 p.1.

Fixpoint insert_by {A : Type} (reverse : bool) (p : Q * A) (l : list (Q * A))
  : list (Q * A) :=
  match l with
  | [] => [p]
  | q :: l' =>
      if goes_after reverse p q then q :: insert_by reverse p l' else p :: q :: l'
  end.

Definition sort_by {A : Type} (reverse : bool) (l : list (Q * A)) : list (Q * A) :=
  foldr (insert_by reverse) [] l.

Definition sorted {A : Type} (key : A -> result Q) (reverse : bool) (l : list A)
  : result (list A) :=
  keys ← mapM key l;
  Ok (map snd (sort_by reverse (combine keys l))).

(** ** sort_by_direction, filter_by_age, filter_by_gender *)

(** [face.bbox[0]] *)
Definition key_x1 (face : Face) : result Q :=
  b ← getattr bbox face; getitem b 0.

(** [face.bbox[1]] *)
Definition key_y1 (face : Face) : result Q :=
  b ← getattr bbox face; getitem b 1.

(** [(face.bbox[2] - face.bbox[0]) * (face.bbox[3] - face.bbox[1])] *)
Definition key_area (face : Face) : result Q :=
  b ← getattr bbox face; x2 ← getitem b 2;
  b ← getattr bbox face; x1 ← getitem b 0;
  b ← getattr bbox face; y2 ← getitem b 3;
  b ← getattr bbox face; y1 ← getitem b 1;
  Ok ((x2 - x1) * (y2 - y1))%Q.

Definition sort_by_direction (faces : list Face) (direction : string)
  : result (list Face) :=
  if String.eqb direction "left-right" then sorted key_x1 false faces
  else if String.eqb direction "right-left" then sorted key_x1 true faces
  else if String.eqb direction "top-bottom" then sorted key_y1 false faces
  else if String.eqb direction "bottom-top" then sorted key_y1 true faces
  else if String.eqb direction "small-large" then sorted key_area false faces
  else if String.eqb direction "large-small" then sorted key_area true faces
  else Ok faces.

(** The [if]/[elif] chain of [filter_by_age] for one face: [face.age] is read
    before the class is compared, in every condition that is reached. *)
Definition age_step (age_class : string) (face : Face) (filter_faces : list Face)
  : result (list Face) :=
  a ← getattr age face;
  if (a <? 13) && String.eqb age_class "child" then Ok (append filter_faces face)
  else
    a ← getattr age face;
    if (a <? 19) && String.eqb age_class "teen" then Ok (append filter_faces face)
    else
      a ← getattr age face;
      if (a <? 60) && String.eqb age_class "adult" then Ok (append filter_faces face)
      else
        a ← getattr age face;
        if (59 <? a) && String.eqb age_class "senior" then Ok (append filter_faces face)
        else Ok filter_faces.

Definition filter_by_age (faces : list Face) (age_class : string)
  : result (list Face) :=
  for_each faces (age_step age_class) [].

(** The two independent [if] statements of [filter_by_gender] for one face. *)
Definition gender_step (gender_class : string) (face : Face)
  (filter_faces : list Face) : result (list Face) :=
  g ← getattr gender face;
  let filter_faces :=
    if (g =? 1) && String.eqb gender_class "male" then append filter_faces face
    else filter_faces in
  g ← getattr gender face;
  let filter_faces :=
    if (g =? 0) && String.eqb gender_class "female" then append filter_faces face
    else filter_faces in
  Ok filter_faces.

Definition filter_by_gender (faces : list Face) (gender_class : string)
  : result (list Face) :=
  for_each faces (gender_step gender_class) [].

(** ** The frame cache *)

Module face_cache.

(** Modelled from the spec: [facefusion.face_cache] is not among the sources;
    the cache collaborator is [get(frame) -> optional<sequence<Face>>] and
    [put(frame, sequence<Face>)], keyed by the frame's content. *)
Definition get_faces_cache (frame : Frame) : Py (option (list Face)) :=
  fun w => (Ok (FACES_CACHE w !! frame), w).

(** Modelled from the spec: [put(frame, sequence<Face>)] of the cache
    collaborator records the sequence under the frame. *)
Definition set_faces_cache (frame : Frame) (faces : list Face) : Py unit :=
  fun w =>
    (Ok tt, mkWorld (<[frame := faces]> (FACES_CACHE w)) (globals w) (detector_calls w)
                    (runtime w)).

End face_cache.

(** ** The analyser *)

Definition read_global (field : Globals -> option string) : Py (option string) :=
  fun w => (Ok (field (globals w)), w).

(** [try: m except (AttributeError, ValueError): handler] *)
Definition try_except_attribute_value {A : Type} (m : Py A) (handler : Py A) : Py A :=
  fun w =>
    match m w with
    | (Raise AttributeError, w') => handler w'
    | (Raise ValueError, w') => handler w'
    | (r, w') => (r, w')
    end.

(** [try: m except IndexError: handler] *)
Definition try_except_index {A : Type} (m : Py A) (handler : Py A) : Py A :=
  fun w =>
    match m w with
    | (Raise IndexError, w') => handler w'
    | (r, w') => (r, w')
    end.

Section Analyser.

(** [resolve_relative_path] of [facefusion.utilities] and the constructors
    of the detector and of the recogniser, which [get_face_analyser] calls. *)
Variable resolve_relative_path : string -> string.
Variable FaceDetectorYN_create :
  option string -> option string -> nat * nat -> result DetectorObject.
Variable InferenceSession : option string -> list string -> result SessionObject.

(** [face_detector.detect(frame)] once the score threshold, the top-K and the
    input size are set: the second component of the pair that OpenCV returns,
    which is [None] when no face is found and the array of the detections,
    one row each, otherwise. *)
Variable detect :
  DetectorObject -> Q -> nat -> nat * nat -> Frame -> result (option (list (list Q))).

(** [create_embedding(frame, kps)]: the recogniser run on the warped crop.
    In the loop of [extract_faces] its own call of [get_face_analyser] finds
    the analyser that line 59 has built and changes nothing, so that here it
    is a function of the frame and of the landmarks. *)
Variable create_embedding : Frame -> Kps -> result Embedding.

(** [numpy.linalg.norm] *)
Variable linalg_norm : Embedding -> Q.

(** [facefusion.face_cache.get_faces_cache] and [set_faces_cache]. *)
Variable get_faces_cache : Frame -> Py (option (list Face)).
Variable set_faces_cache : Frame -> list Face -> Py unit.

(** [get_face_analyser()] on the analyser handle of the world. *)
Definition world_get_face_analyser : Py (Analyser DetectorObject SessionObject) :=
  fun w =>
    let '(r, s) := get_face_analyser resolve_relative_path DetectorObject SessionObject
                     FaceDetectorYN_create InferenceSession (runtime w) in
    (r, mkWorld (FACES_CACHE w) (globals w) (detector_calls w) s).

Definition face_detector_detect (face_detector : DetectorObject)
  (input_size : nat * nat) (frame : Frame) : Py (option (list (list Q))) :=
  fun w =>
    (detect face_detector (1 # 2)%Q 100%nat input_size frame,
     mkWorld (FACES_CACHE w) (globals w) (frame :: detector_calls w) (runtime w)).

(** [detections.any()]: a method of the array; [None] has no attribute
    [any]. *)
Definition detections_any (detections : option (list (list Q))) : result bool :=
  match detections with
  | Some a => Ok (ndarray_any a)
  | None => Raise AttributeError
  end.

(** [for detection in detections]: the rows of the array; [None] is not
    iterable. *)
Definition iter (detections : option (list (list Q))) : result (list (list Q)) :=
  match detections with
  | Some a => Ok a
  | None => Raise TypeError
  end.

(** The body of the loop over the detections. *)
Definition extract_step (frame : Frame) (detection : list Q) (faces : list Face)
  : result (list Face) :=
  let bbox := slice 0 4 detection in
  kps ← reshape_5_2 (slice 4 14 detection);
  score ← getitem detection 14;
  embedding ← create_embedding frame kps;
  let normed_embedding := map (fun x => x / linalg_norm embedding)%Q embedding in
  Ok (append faces
        (mkFace (Some bbox) (Some kps) (Some score) (Some embedding)
                (Some normed_embedding) (Some 0) (Some 0))).

Definition extract_faces (frame : Frame) : Py (list Face) :=
  analyser ← world_get_face_analyser;
  let face_detector := face_detector DetectorObject SessionObject analyser in
  let '(height, width, _) := shape frame in
  detections ← face_detector_detect face_detector (width, height) frame;
  any ← lift (detections_any detections);
  if (any : bool)
  then rows ← lift (iter detections);
       lift (for_each rows (extract_step frame) [])
  else mret [].

Definition get_many_faces_try (frame : Frame) : Py (list Face) :=
  faces_cache ← get_faces_cache frame;
  faces ← (if truthy_opt faces_cache
           then mret (default [] faces_cache)
           else faces ← extract_faces frame;
                _ ← set_faces_cache frame faces;
                mret faces);
  direction ← read_global face_analyser_direction;
  faces ← (if truthy_str direction
           then lift (sort_by_direction faces (default "" direction))
           else mret faces);
  age_class ← read_global face_analyser_age;
  faces ← (if truthy_str age_class
           then lift (filter_by_age faces (default "" age_class))
           else mret faces);
  gender_class ← read_global face_analyser_gender;
  faces ← (if truthy_str gender_class
           then lift (filter_by_gender faces (default "" gender_class))
           else mret faces);
  mret faces.

Definition get_many_faces (frame : Frame) : Py (list Face) :=
  try_except_attribute_value (get_many_faces_try frame) (mret []).

Definition get_one_face (frame : Frame) (position : Z) : Py (option Face) :=
  many_faces ← get_many_faces frame;
  if truthy many_faces
  then try_except_index (face ← lift (getitem many_faces position); mret (Some face))
                        (face ← lift (getitem many_faces (-1)); mret (Some face))
  else mret None.

(** The body of the loop of [find_similar_faces]. *)
Definition similar_step (reference_face : Face) (face_distance : Q) (face : Face)
  (similar_faces : list Face) : result (list Face) :=
  if hasattr normed_embedding face && hasattr normed_embedding reference_face
  then
    a ← getattr normed_embedding face;
    b ← getattr normed_embedding reference_face;
    d ← numpy_dot a b;
    let current_face_distance := (1 - d)%Q in
    if Qltb current_face_distance face_distance
    then Ok (append similar_faces face)
    else Ok similar_faces
  else Ok similar_faces.

Definition find_similar_faces (frame : Frame) (reference_face : Face)
  (face_distance : Q) : Py (list Face) :=
  many_faces ← get_many_faces frame;
  if truthy many_faces
  then lift (for_each many_faces (similar_step reference_face face_distance) [])
  else mret [].

(** ** The stages of the cached query *)

(** What [extract_faces] returns once it holds the detector, which depends
    on the detector and on the frame alone. *)
Definition extract_faces_result (face_detector : DetectorObject) (frame : Frame)
  : result (list Face) :=
  detections ← detect face_detector (1 # 2)%Q 100%nat
                 (frame_width frame, frame_height frame) frame;
  any ← detections_any detections;
  if (any : bool)
  then rows ← iter detections;
       for_each rows (extract_step frame) []
  else Ok [].

(** The stages of [get_many_faces_try]: the cache lookup with the extraction
    on a miss, then the sort and the two filters, each under its selector. *)
Definition cached_faces (frame : Frame) : Py (list Face) :=
  faces_cache ← get_faces_cache frame;
  if truthy_opt faces_cache
  then mret (default [] faces_cache)
  else faces ← extract_faces frame;
       _ ← set_faces_cache frame faces;
       mret faces.

(** Lines 118 and 119: the sort, under its selector. *)
Definition apply_direction (faces : list Face) : Py (list Face) :=
  direction ← read_global face_analyser_direction;
  if truthy_str direction
  then lift (sort_by_direction faces (default "" direction))
  else mret faces.

(** Lines 120 and 121: the age filter, under its selector. *)
Definition apply_age (faces : list Face) : Py (list Face) :=
  age_class ← read_global face_analyser_age;
  if truthy_str age_class
  then lift (filter_by_age faces (default "" age_class))
  else mret faces.

(** Lines 122 and 123: the gender filter, under its selector. *)
Definition apply_gender (faces : list Face) : Py (list Face) :=
  gender_class ← read_global face_analyser_gender;
  if truthy_str gender_class
  then lift (filter_by_gender faces (default "" gender_class))
  else mret faces.

End Analyser.

(** ** The embedding

    The recogniser's methods and the warp are parameters. *)

Section Runtime.

Variable resolve_relative_path : string -> string.
Variable Detector : Type.
Variable Session : Type.
Variable FaceDetectorYN_create :
  option string -> option string -> nat * nat -> result Detector.
Variable InferenceSession : option string -> list string -> result Session.

(** [session.get_inputs()], as the names of the inputs, and
    [session.run(None, {name: tensor})], as the list of the output arrays. *)
Variable session_input_names : Session -> list string.
Variable session_run :
  Session -> string -> list (list (list (list Q))) -> result (list (list (list Q))).

(** [warp_face(temp_frame, kps, template, size)] of [facefusion.face_helper]:
    the crop, of shape (height, width, channels), and the matrix. *)
Variable Matrix : Type.
Variable warp_face :
  Frame -> Kps -> string -> nat * nat -> result (list (list (list Z)) * Matrix).

(** [crop_frame.astype(numpy.float32) / 127.5 - 1] *)
Definition scale_pixels (crop_frame : list (list (list Z))) : list (list (list Q)) :=
  map (map (map (fun v => inject_Z v / (255 # 2) - 1)%Q)) crop_frame.

(** [a[:, :, ::-1]] *)
Definition reverse_channels (a : list (list (list Q))) : list (list (list Q)) :=
  map (map (@rev Q)) a.

(** The size of the last axis of an array of shape (height, width, channels). *)
Definition channels_of (a : list (list (list Q))) : nat :=
  match a with
  | (pixel :: _) :: _ => length pixel
  | _ => 0%nat
  end.

(** [a.transpose(2, 0, 1)]: the entry (c, h, w) of the result is the entry
    (h, w, c) of [a]. *)
Definition transpose_2_0_1 (a : list (list (list Q))) : list (list (list Q)) :=
  map (fun c => map (map (fun pixel => nth c pixel 0%Q)) a) (seq 0 (channels_of a)).

(** [numpy.expand_dims(a, axis = 0)] *)
Definition expand_dims_0 {A : Type} (a : A) : list A := [a].

(** Lines 89 to 91: the tensor that is given to the recogniser. *)
Definition prepare_crop_frame (crop_frame : list (list (list Z)))
  : list (list (list (list Q))) :=
  let crop_frame := scale_pixels crop_frame in
  let crop_frame := transpose_2_0_1 (reverse_channels crop_frame) in
  expand_dims_0 crop_frame.

(** [a.ravel()] of a two-dimensional array. *)
Definition ravel (a : list (list Q)) : list Q := concat a.

Definition create_embedding (temp_frame : Frame) (kps : Kps)
  (s : Runtime Detector Session) : result Embedding * Runtime Detector Session :=
  match get_face_analyser resolve_relative_path Detector Session
          FaceDetectorYN_create InferenceSession s with
  | (Raise e, s1) => (Raise e, s1)
  | (Ok analyser, s1) =>
      let face_recognition := face_recognition Detector Session analyser in
      (match warp_face temp_frame kps "arcface" (112, 112)%nat with
       | Raise e => Raise e
       | Ok (crop_frame, matrix) =>
           let crop_frame := prepare_crop_frame crop_frame in
           name ← getitem (session_input_names face_recognition) 0;
           outputs ← session_run face_recognition name crop_frame;
           embedding ← getitem outputs 0;
           Ok (ravel embedding)
       end, s1)
  end.

End Runtime.

(** ** Line 73 in binary32

    The recogniser returns an array of binary32 values, and line 73 divides
    it by [numpy.linalg.norm] of it, which for a one-dimensional array is
    the square root of the dot product of the array with itself, in binary32
    as well.  The operations are those of IEEE 754, from [SpecFloat], at the
    precision 24 and the maximal exponent 128. *)

Module float32.

Definition prec : Z := 24.
Definition emax : Z := 128.

Definition add : SpecFloat.spec_float -> SpecFloat.spec_float -> SpecFloat.spec_float :=
  SpecFloat.SFadd prec emax.
Definition sub : SpecFloat.spec_float -> SpecFloat.spec_float -> SpecFloat.spec_float :=
  SpecFloat.SFsub prec emax.
Definition mul : SpecFloat.spec_float -> SpecFloat.spec_float -> SpecFloat.spec_float :=
  SpecFloat.SFmul prec emax.
Definition div : SpecFloat.spec_float -> SpecFloat.spec_float -> SpecFloat.spec_float :=
  SpecFloat.SFdiv prec emax.
Definition sqrt : SpecFloat.spec_float -> SpecFloat.spec_float :=
  SpecFloat.SFsqrt prec emax.

Definition zero : SpecFloat.spec_float := SpecFloat.S754_zero false.

(** The power of two 2^k, for k between -126 and 127. *)
Definition pow2 (k : Z) : SpecFloat.spec_float :=
  SpecFloat.S754_finite false 8388608 (k - 23).

(** The binary32 value nearest to 1e-5. *)
Definition tolerance : SpecFloat.spec_float :=
  SpecFloat.S754_finite false 10995116 (-40).

(** [numpy.linalg.norm(e)] *)
Definition linalg_norm (e : list SpecFloat.spec_float) : SpecFloat.spec_float :=
  sqrt (fold_left (fun acc x => add acc (mul x x)) e zero).

(** Line 73: [embedding / numpy.linalg.norm(embedding)] *)
Definition normed_embedding (e : list SpecFloat.spec_float)
  : list SpecFloat.spec_float :=
  map (fun x => div x (linalg_norm e)) e.

(** Some entry of the array is not zero. *)
Definition nonzero (e : list SpecFloat.spec_float) : bool :=
  existsb (fun x => negb (SpecFloat.SFeqb x zero)) e.

(** The value is within 1e-5 of 1. *)
Definition unit_within_tolerance (x : SpecFloat.spec_float) : bool :=
  SpecFloat.SFleb (SpecFloat.SFabs (sub x (pow2 0))) tolerance.

End float32.

(** ** Functions used to state the properties *)

(** The world after one more call of the detector. *)
Definition detector_called (frame : Frame) (w : World) : World :=
  mkWorld (FACES_CACHE w) (globals w) (frame :: detector_calls w) (runtime w).

(** The world after [set_faces_cache(frame, faces)]. *)
Definition stored (frame : Frame) (faces : list Face) (w : World) : World :=
  mkWorld (<[frame := faces]> (FACES_CACHE w)) (globals w) (detector_calls w)
          (runtime w).

(** The world with the analyser handle in the state [s]. *)
Definition with_runtime (s : Runtime DetectorObject SessionObject) (w : World)
  : World :=
  mkWorld (FACES_CACHE w) (globals w) (detector_calls w) s.

(** The handler of [get_many_faces], on results. *)
Definition caught (r : result (list Face)) : result (list Face) :=
  match r with
  | Raise AttributeError => Ok []
  | Raise ValueError => Ok []
  | r => r
  end.

(** What the sort and the two filters make of the faces, under a
    configuration. *)
Definition refine_result (g : Globals) (faces : list Face) : result (list Face) :=
  faces ← (if truthy_str (face_analyser_direction g)
           then sort_by_direction faces (default "" (face_analyser_direction g))
           else Ok faces);
  faces ← (if truthy_str (face_analyser_age g)
           then filter_by_age faces (default "" (face_analyser_age g))
           else Ok faces);
  faces ← (if truthy_str (face_analyser_gender g)
           then filter_by_gender faces (default "" (face_analyser_gender g))
           else Ok faces);
  Ok faces.

(** The strict order of the keys of two (key, element) pairs. *)
Definition key_lt {A : Type} (p q : Q * A) : Prop := (p.1 < q.1)%Q.

(** The condition under which [filter_by_age] appends a face of age [a]. *)
Definition age_keeps (age_class : string) (a : Z) : bool :=
  (a <? 13) && String.eqb age_class "child"
  || (a <? 19) && String.eqb age_class "teen"
  || (a <? 60) && String.eqb age_class "adult"
  || (59 <? a) && String.eqb age_class "senior".

Definition face_age_keeps (age_class : string) (face : Face) : bool :=
  match age face with
  | Some a => age_keeps age_class a
  | None => false
  end.

(** The condition under which [filter_by_gender] appends a face of gender
    [g]. *)
Definition gender_keeps (gender_class : string) (g : Z) : bool :=
  (g =? 1) && String.eqb gender_class "male"
  || (g =? 0) && String.eqb gender_class "female".

Definition face_gender_keeps (gender_class : string) (face : Face) : bool :=
  match gender face with
  | Some g => gender_keeps gender_class g
  | None => false
  end.

(** The face has the gender value [g]. *)
Definition gender_is (g : Z) (face : Face) : bool :=
  match gender face with
  | Some g' => g' =? g
  | None => false
  end.

(** The gender value of the face is 0 or 1. *)
Definition gender_valid (face : Face) : bool :=
  gender_is 1 face || gender_is 0 face.

(** The enumerations of the selectors. *)
Definition age_classes : list string := ["child"; "teen"; "adult"; "senior"].
Definition gender_classes : list string := ["male"; "female"].
Definition directions : list string :=
  ["left-right"; "right-left"; "top-bottom"; "bottom-top"; "small-large"; "large-small"].

(** The condition under which [find_similar_faces] appends a face: both
    normed embeddings are present and the distance is below the threshold. *)
Definition is_similar (reference_face : Face) (face_distance : Q) (face : Face)
  : bool :=
  match normed_embedding face, normed_embedding reference_face with
  | Some a, Some b => Qltb (1 - dot_sum a b) face_distance
  | _, _ => false
  end.

(** The normed embedding of the face, when present, has the length of the
    reference's. *)
Definition same_length_as (reference_face face : Face) : Prop :=
  forall a b,
    normed_embedding face = Some a ->
    normed_embedding reference_face = Some b ->
    length a = length b.

(** The key and the order that [sort_by_direction] uses for a direction. *)
Definition direction_key (direction : string) : Face -> result Q :=
  if String.eqb direction "left-right" || String.eqb direction "right-left"
  then key_x1
  else if String.eqb direction "top-bottom" || String.eqb direction "bottom-top"
       then key_y1
       else key_area.

Definition direction_reversed (direction : string) : bool :=
  String.eqb direction "right-left"
  || String.eqb direction "bottom-top"
  || String.eqb direction "large-small".

(** The order of two keys that follow each other in a sorted result. *)
Definition key_order (reverse : bool) (a b : Q) : Prop :=
  if reverse then (b <= a)%Q else (a <= b)%Q.

(** The element has the key [k]. *)
Definition has_key {A : Type} (key : A -> result Q) (k : Q) (x : A) : bool :=
  match key x with
  | Ok k' => Qeq_bool k' k
  | Raise _ => false
  end.

(** What the loop of [extract_faces] makes of one detection. *)
Definition built_from (create_embedding : Frame -> Kps -> result Embedding)
  (linalg_norm : Embedding -> Q) (frame : Frame) (detection : list Q)
  (face : Face) : Prop :=
  bbox face = Some (slice 0 4 detection)
  /\ (exists k, reshape_5_2 (slice 4 14 detection) = Ok k
                /\ kps face = Some k
                /\ exists e, create_embedding frame k = Ok e
                             /\ embedding face = Some e
                             /\ normed_embedding face
                                = Some (map (fun x => x / linalg_norm e)%Q e))
  /\ score face = detection !! 14%nat
  /\ is_Some (score face)
  /\ gender face = Some 0
  /\ age face = Some 0.

(** The value [c] is positive and is the L2 norm of [e] within the relative
    tolerance [t]: (1 - t) c <= ||e|| <= (1 + t) c, on the squares. *)
Definition norm_within (t c : Q) (e : Embedding) : Prop :=
  (0 <= t <= 1
   /\ 0 < c
   /\ (1 - t) * (1 - t) * (c * c) <= dot_sum e e
   /\ dot_sum e e <= (1 + t) * (1 + t) * (c * c))%Q.

(** The array has the shape (h, w, c). *)
Definition has_shape {A : Type} (h w c : nat) (a : list (list (list A))) : Prop :=
  length a = h
  /\ Forall (fun row => length row = w /\ Forall (fun pixel => length pixel = c) row) a.

(** Every entry of the tensor satisfies [P]. *)
Definition all_entries {A : Type} (P : A -> Prop) (t : list (list (list (list A))))
  : Prop :=
  Forall (Forall (Forall (Forall P))) t.

(** The entry (k, i, j) of an array of three axes. *)
Definition entry {A : Type} (a : list (list (list A))) (k i j : nat) : option A :=
  match a !! k with
  | Some plane =>
      match plane !! i with
      | Some line => line !! j
      | None => None
      end
  | None => None
  end.

(** ** Concrete inputs *)

(** A face as [extract_faces] builds it, with the box, the normed embedding,
    the gender and the age given. *)
Definition sample_face (x1 y1 x2 y2 : Q) (e : Embedding) (g a : Z) : Face :=
  mkFace (Some [x1; y1; x2; y2]) (Some []) (Some 1%Q) (Some e) (Some e)
         (Some g) (Some a).

Definition frame0 : Frame := mkFrame 2 2 1 [10; 20; 30; 40].

Definition no_selection : Globals := mkGlobals None None None.

(** A runtime with numbered handles, in which everything succeeds, and a
    recogniser constructor that fails. *)
Definition resolve_here (path : string) : string := path.

Definition download_ok (directory : string) (urls : list (option string))
  : result unit := Ok tt.

Definition detector_ok (path config : option string) (size : nat * nat)
  : result nat := Ok 1%nat.

Definition session_ok (path : option string) (providers : list string)
  : result nat := Ok 2%nat.

Definition session_fails (path : option string) (providers : list string)
  : result nat := Raise RuntimeError.

(** The analyser handle before the first use, and once it is built. *)
Definition runtime0 : Runtime nat nat :=
  mkRuntime nat nat None ["CPUExecutionProvider"] false 0 0 [].

Definition runtime_built : Runtime nat nat :=
  mkRuntime nat nat (Some (mkAnalyser nat nat 1%nat 2%nat))
            ["CPUExecutionProvider"] false 1 1 [].

Definition world0 : World := mkWorld ∅ no_selection [] runtime0.

(** A detector that finds no face, for which OpenCV returns [None], and one
    that finds one face. *)
Definition detect_nothing (face_detector : DetectorObject) (score_threshold : Q)
  (top_k : nat) (input_size : nat * nat) (frame : Frame)
  : result (option (list (list Q))) :=
  Ok None.

Definition detect_one (face_detector : DetectorObject) (score_threshold : Q)
  (top_k : nat) (input_size : nat * nat) (frame : Frame)
  : result (option (list (list Q))) :=
  Ok (Some [[0; 0; 10; 10; 2; 3; 7; 3; 5; 5; 3; 7; 7; 7; 9 # 10]%Q]).

Definition embed_axis (frame : Frame) (kps : Kps) : result Embedding :=
  Ok [3; 0]%Q.

Definition norm_axis (e : Embedding) : Q := 3.

(** An embedding whose L2 norm, the square root of 2, is not rational. *)
Definition embed_diagonal (frame : Frame) (kps : Kps) : result Embedding :=
  Ok [1; 1]%Q.

(** An approximation of [numpy.linalg.norm]: Newton's iteration for the
    square root of the sum of the squares, six rounds from 1. *)
Fixpoint sqrt_newton (rounds : nat) (x guess : Q) : Q :=
  match rounds with
  | O => guess
  | S rounds => sqrt_newton rounds x (Qred ((guess + x / guess) / 2))
  end.

Definition norm_newton (e : Embedding) : Q := sqrt_newton 6 (dot_sum e e) 1.

Definition face_a : Face := sample_face 5 0 6 1 [1; 0]%Q 1 30.
Definition face_b : Face := sample_face 1 0 2 1 [0; 1]%Q 0 59.
Definition face_c : Face :=
  mkFace (Some [3; 0; 4; 1]%Q) (Some []) (Some 1%Q) None None (Some 0) (Some 70).
Definition face_without_age : Face :=
  mkFace (Some [3; 0; 4; 1]%Q) (Some []) (Some 1%Q) None None (Some 0) None.

(** A world whose cache holds three faces for [frame0]. *)
Definition world_cached : World :=
  mkWorld {[ frame0 := [face_a; face_b; face_c] ]} no_selection [] runtime0.

(** A world whose cache holds a face without an age, with the age filter on. *)
Definition world_ageless : World :=
  mkWorld {[ frame0 := [face_a; face_without_age] ]}
          (mkGlobals None (Some "adult") None) [] runtime0.

Definition face_without_box : Face :=
  mkFace (Some []) (Some []) (Some 1%Q) None None (Some 0) (Some 0).

(** A world whose cache holds a face with an empty box, sorted left to right. *)
Definition world_boxless : World :=
  mkWorld {[ frame0 := [face_a; face_without_box] ]}
          (mkGlobals (Some "left-right") None None) [] runtime0.

Definition frame1 : Frame := mkFrame 1 2 1 [7; 8].

(** A world whose cache holds a face for [frame1] and nothing for [frame0]. *)
Definition world_other : World :=
  mkWorld {[ frame1 := [face_a] ]} no_selection [] runtime0.

(** Embeddings in binary32: (3, 4), and two of 512 entries, as the
    recogniser returns them, one whose squares underflow and one whose
    squares overflow. *)
Definition plain_embedding : list SpecFloat.spec_float :=
  [SpecFloat.S754_finite false 12582912 (-22); float32.pow2 2].

Definition tiny_embedding : list SpecFloat.spec_float :=
  repeat (float32.pow2 (-80)) 512.

Definition huge_embedding : list SpecFloat.spec_float :=
  repeat (float32.pow2 70) 512.

(** A recogniser and a warp with fixed results. *)
Definition input_names (session : nat) : list string := ["input.1"].

Definition run_fixed (session : nat) (name : string)
  (tensor : list (list (list (list Q)))) : result (list (list (list Q))) :=
  Ok [[[3; 4]; [0; 12]]%Q].

Definition warp_fixed (frame : Frame) (kps : Kps) (template : string)
  (size : nat * nat) : result (list (list (list Z)) * unit) :=
  Ok ([[[0; 128; 255]]], tt).

(** * Properties *)

(** ** Loops that collect *)

Lemma rbind_Ok {A B : Type} (a : A) (k : A -> result B) :
  (x ← Ok a; k x) = k a.
Proof. reflexivity. Qed.

(** A loop whose body appends the element when [keep] holds computes the
    filter, appended to the initial accumulator. *)
Lemma for_each_filter {A : Type} (step : A -> list A -> result (list A))
  (keep : A -> bool) (P : A -> Prop) (l acc : list A) :
  (forall x acc', P x -> step x acc' = Ok (if keep x then append acc' x else acc')) ->
  Forall P l ->
  for_each l step acc = Ok (acc ++ List.filter keep l)%list.
Proof.
  intros Hstep Hall. revert acc.
  induction Hall as [|x l Hx _ IH]; intros acc; simpl.
  - by rewrite app_nil_r.
  - rewrite (Hstep x acc Hx), rbind_Ok, IH.
    destruct (keep x); unfold append; [by rewrite <- app_assoc | done].
Qed.

(** When the body may also raise, a loop that returns has computed the filter. *)
Lemma for_each_filter_inv {A : Type} (step : A -> list A -> result (list A))
  (keep : A -> bool) (l acc r : list A) :
  (forall x acc', step x acc' = Ok (if keep x then append acc' x else acc')
                  \/ exists e, step x acc' = Raise e) ->
  for_each l step acc = Ok r ->
  r = (acc ++ List.filter keep l)%list.
Proof.
  intros Hstep. revert acc.
  induction l as [|x l IH]; intros acc; simpl.
  - intros [= <-]. by rewrite app_nil_r.
  - destruct (Hstep x acc) as [-> | [e ->]]; [|done].
    rewrite rbind_Ok. intros Hr. apply IH in Hr as ->.
    destruct (keep x); unfold append; [by rewrite <- app_assoc | done].
Qed.

(** ** The age and gender filters *)

Lemma age_step_Some (age_class : string) (face : Face) (acc : list Face) (a : Z) :
  age face = Some a ->
  age_step age_class face acc
  = Ok (if face_age_keeps age_class face then append acc face else acc).
Proof.
  intros Ha. unfold age_step, face_age_keeps, age_keeps, getattr.
  rewrite Ha. simpl.
  destruct ((a <? 13) && _); [done|]. simpl.
  destruct ((a <? 19) && _); [done|]. simpl.
  destruct ((a <? 60) && _); [done|]. simpl.
  by destruct ((59 <? a) && _).
Qed.

Lemma age_step_None (age_class : string) (face : Face) (acc : list Face) :
  age face = None -> age_step age_class face acc = Raise AttributeError.
Proof. intros Ha. unfold age_step, getattr. by rewrite Ha. Qed.

Lemma gender_step_Some (gender_class : string) (face : Face) (acc : list Face) (g : Z) :
  gender face = Some g ->
  gender_step gender_class face acc
  = Ok (if face_gender_keeps gender_class face then append acc face else acc).
Proof.
  intros Hg. unfold gender_step, face_gender_keeps, gender_keeps, getattr.
  rewrite Hg. simpl.
  destruct (String.eqb gender_class "male") eqn:Em;
    destruct (String.eqb gender_class "female") eqn:Ef.
  - apply String.eqb_eq in Em, Ef. congruence.
  - rewrite !andb_true_r, !andb_false_r, orb_false_r. by destruct (g =? 1).
  - rewrite !andb_true_r, !andb_false_r. simpl. by destruct (g =? 0).
  - by rewrite !andb_false_r.
Qed.

Lemma gender_step_None (gender_class : string) (face : Face) (acc : list Face) :
  gender face = None -> gender_step gender_class face acc = Raise AttributeError.
Proof. intros Hg. unfold gender_step, getattr. by rewrite Hg. Qed.

Lemma filter_by_age_spec (faces : list Face) (age_class : string) :
  Forall (fun face => is_Some (age face)) faces ->
  filter_by_age faces age_class = Ok (List.filter (face_age_keeps age_class) faces).
Proof.
  intros Hall. unfold filter_by_age.
  apply (for_each_filter _ (face_age_keeps age_class)
           (fun face => is_Some (age face))); [|done].
  intros face acc [a Ha]. by eapply age_step_Some.
Qed.

Lemma filter_by_gender_spec (faces : list Face) (gender_class : string) :
  Forall (fun face => is_Some (gender face)) faces ->
  filter_by_gender faces gender_class
  = Ok (List.filter (face_gender_keeps gender_class) faces).
Proof.
  intros Hall. unfold filter_by_gender.
  apply (for_each_filter _ (face_gender_keeps gender_class)
           (fun face => is_Some (gender face))); [|done].
  intros face acc [g Hg]. by eapply gender_step_Some.
Qed.

Lemma age_step_cases (age_class : string) (face : Face) (acc : list Face) :
  age_step age_class face acc
  = Ok (if face_age_keeps age_class face then append acc face else acc)
  \/ exists e, age_step age_class face acc = Raise e.
Proof.
  destruct (age face) as [a|] eqn:Ha.
  - left. by eapply age_step_Some.
  - right. exists AttributeError. by apply age_step_None.
Qed.

Lemma gender_step_cases (gender_class : string) (face : Face) (acc : list Face) :
  gender_step gender_class face acc
  = Ok (if face_gender_keeps gender_class face then append acc face else acc)
  \/ exists e, gender_step gender_class face acc = Raise e.
Proof.
  destruct (gender face) as [g|] eqn:Hg.
  - left. by eapply gender_step_Some.
  - right. exists AttributeError. by apply gender_step_None.
Qed.

Lemma filter_false {A : Type} (keep : A -> bool) (l : list A) :
  (forall x, keep x = false) -> List.filter keep l = [].
Proof.
  intros Hk. induction l as [|x l IH]; simpl; [done|]. by rewrite Hk.
Qed.

Lemma eqb_not_In (s : string) (known : list string) (c : string) :
  ~ In s known -> In c known -> String.eqb s c = false.
Proof.
  intros Hs Hc. apply String.eqb_neq. intros ->. by apply Hs.
Qed.

Lemma face_age_keeps_unknown (age_class : string) (face : Face) :
  ~ In age_class age_classes -> face_age_keeps age_class face = false.
Proof.
  intros Hc. unfold face_age_keeps, age_keeps.
  destruct (age face) as [a|]; [|done].
  rewrite !(eqb_not_In _ _ _ Hc) by (simpl; tauto).
  by rewrite !andb_false_r.
Qed.

Lemma face_gender_keeps_unknown (gender_class : string) (face : Face) :
  ~ In gender_class gender_classes -> face_gender_keeps gender_class face = false.
Proof.
  intros Hc. unfold face_gender_keeps, gender_keeps.
  destruct (gender face) as [g|]; [|done].
  rewrite !(eqb_not_In _ _ _ Hc) by (simpl; tauto).
  by rewrite !andb_false_r.
Qed.

Lemma sort_by_direction_unknown (faces : list Face) (direction : string) :
  ~ In direction directions -> sort_by_direction faces direction = Ok faces.
Proof.
  intros Hd. unfold sort_by_direction.
  by rewrite !(eqb_not_In _ _ _ Hd) by (simpl; tauto).
Qed.

(** C3, as the code has it: a face of age exactly 59 is kept by
    [filter_by_age] with class "adult" (the test is [age < 60]) and is not
    kept with class "senior" (the test is [age > 59]). *)
Theorem filter_by_age_59_adult_not_senior (faces : list Face) (face : Face) :
  Forall (fun f => is_Some (age f)) faces ->
  In face faces ->
  age face = Some 59 ->
  (exists kept, filter_by_age faces "adult" = Ok kept /\ In face kept)
  /\ (exists kept, filter_by_age faces "senior" = Ok kept /\ ~ In face kept).
Proof.
  intros Hall Hin Hage. split.
  - eexists. split; [by apply filter_by_age_spec|].
    apply filter_In. split; [done|].
    unfold face_age_keeps. by rewrite Hage.
  - eexists. split; [by apply filter_by_age_spec|].
    rewrite filter_In. intros [_ Hk].
    unfold face_age_keeps in Hk. by rewrite Hage in Hk.
Qed.

Lemma filter_by_age_59_adult_not_senior_witness :
  (exists kept,
     filter_by_age [sample_face 0 0 1 1 [] 1 20; sample_face 2 0 3 1 [] 0 59] "adult"
     = Ok kept /\ In (sample_face 2 0 3 1 [] 0 59) kept)
  /\ (exists kept,
        filter_by_age [sample_face 0 0 1 1 [] 1 20; sample_face 2 0 3 1 [] 0 59] "senior"
        = Ok kept /\ ~ In (sample_face 2 0 3 1 [] 0 59) kept).
Proof.
  apply filter_by_age_59_adult_not_senior.
  - repeat constructor; by eexists.
  - simpl. tauto.
  - reflexivity.
Defined.

(** C3, as the spec has it, fails: with class "adult" the filter keeps a face
    of age 59. *)
Lemma filter_by_age_adult_keeps_59 :
  age (sample_face 0 0 1 1 [] 0 59) = Some 59
  /\ filter_by_age [sample_face 0 0 1 1 [] 0 59] "adult"
     = Ok [sample_face 0 0 1 1 [] 0 59].
Proof. split; reflexivity. Qed.

Lemma face_gender_keeps_male (face : Face) :
  face_gender_keeps "male" face = gender_is 1 face.
Proof.
  unfold face_gender_keeps, gender_keeps, gender_is.
  destruct (gender face) as [g|]; [|done]. simpl.
  by rewrite andb_true_r, andb_false_r, orb_false_r.
Qed.

Lemma face_gender_keeps_female (face : Face) :
  face_gender_keeps "female" face = gender_is 0 face.
Proof.
  unfold face_gender_keeps, gender_keeps, gender_is.
  destruct (gender face) as [g|]; [|done]. simpl.
  by rewrite andb_true_r, andb_false_r.
Qed.

Lemma gender_is_exclusive (face : Face) :
  gender_is 1 face = true -> gender_is 0 face = true -> False.
Proof.
  unfold gender_is. destruct (gender face) as [g|]; [|done].
  intros H1 H0. apply Z.eqb_eq in H1, H0. lia.
Qed.

Lemma gender_is_Some (g : Z) (face : Face) :
  gender_is g face = true <-> gender face = Some g.
Proof.
  unfold gender_is. destruct (gender face) as [g'|]; [|done].
  rewrite Z.eqb_eq. split; congruence.
Qed.

(** Two filters that never keep the same element split the filter by their
    disjunction. *)
Lemma filter_split_Permutation {A : Type} (p q : A -> bool) (l : list A) :
  (forall x, p x = true -> q x = true -> False) ->
  Permutation (List.filter p l ++ List.filter q l)
              (List.filter (fun x => p x || q x) l).
Proof.
  intros Hpq. induction l as [|x l IH]; simpl; [done|].
  destruct (p x) eqn:Hp, (q x) eqn:Hq; simpl.
  - destruct (Hpq x Hp Hq).
  - by constructor.
  - rewrite <- Permutation_middle. by constructor.
  - done.
Qed.

(** C8: on faces that carry a gender, [filter_by_gender] with "male" and with
    "female" return disjoint results whose union is the input without the
    faces whose gender is neither 0 nor 1. *)
Theorem filter_by_gender_partition (faces : list Face) :
  Forall (fun f => is_Some (gender f)) faces ->
  exists males females,
    filter_by_gender faces "male" = Ok males
    /\ filter_by_gender faces "female" = Ok females
    /\ (forall face, ~ (In face males /\ In face females))
    /\ (forall face,
          In face males \/ In face females
          <-> In face faces /\ (gender face = Some 1 \/ gender face = Some 0))
    /\ Permutation (males ++ females) (List.filter gender_valid faces).
Proof.
  intros Hall.
  exists (List.filter (gender_is 1) faces), (List.filter (gender_is 0) faces).
  assert (Hext : forall c k, (forall f, face_gender_keeps c f = k f) ->
            List.filter (face_gender_keeps c) faces = List.filter k faces).
  { intros c k Hk. by apply filter_ext. }
  split; [|split; [|split; [|split]]].
  - rewrite (filter_by_gender_spec _ _ Hall).
    f_equal. apply Hext, face_gender_keeps_male.
  - rewrite (filter_by_gender_spec _ _ Hall).
    f_equal. apply Hext, face_gender_keeps_female.
  - intros face [[_ H1]%filter_In [_ H0]%filter_In].
    by eapply gender_is_exclusive.
  - intros face. rewrite !filter_In, !gender_is_Some. tauto.
  - apply filter_split_Permutation. intros x. apply gender_is_exclusive.
Qed.

Lemma filter_by_gender_partition_witness :
  exists males females,
    filter_by_gender [sample_face 0 0 1 1 [] 1 20; sample_face 2 0 3 1 [] 0 30;
                      sample_face 4 0 5 1 [] 2 40] "male" = Ok males
    /\ filter_by_gender [sample_face 0 0 1 1 [] 1 20; sample_face 2 0 3 1 [] 0 30;
                         sample_face 4 0 5 1 [] 2 40] "female" = Ok females
    /\ (forall face, ~ (In face males /\ In face females))
    /\ (forall face,
          In face males \/ In face females
          <-> In face [sample_face 0 0 1 1 [] 1 20; sample_face 2 0 3 1 [] 0 30;
                       sample_face 4 0 5 1 [] 2 40]
              /\ (gender face = Some 1 \/ gender face = Some 0))
    /\ Permutation (males ++ females)
         (List.filter gender_valid
            [sample_face 0 0 1 1 [] 1 20; sample_face 2 0 3 1 [] 0 30;
             sample_face 4 0 5 1 [] 2 40]).
Proof.
  apply filter_by_gender_partition.
  repeat constructor; by eexists.
Defined.

(** C10: with a class outside the enumeration, [filter_by_age] and
    [filter_by_gender] return the empty list on faces that carry the
    attribute, and never the input itself unless it is empty;
    [sort_by_direction] with an unknown direction returns its input. *)
Theorem filters_unknown_class_empty (faces : list Face) (class : string) :
  (~ In class age_classes ->
     (Forall (fun f => is_Some (age f)) faces -> filter_by_age faces class = Ok [])
     /\ (faces <> [] -> filter_by_age faces class <> Ok faces))
  /\ (~ In class gender_classes ->
        (Forall (fun f => is_Some (gender f)) faces ->
           filter_by_gender faces class = Ok [])
        /\ (faces <> [] -> filter_by_gender faces class <> Ok faces))
  /\ (~ In class directions -> sort_by_direction faces class = Ok faces).
Proof.
  split; [|split].
  - intros Hc. split.
    + intros Hall. rewrite (filter_by_age_spec _ _ Hall).
      f_equal. apply filter_false. intros f. by apply face_age_keeps_unknown.
    + intros Hne Hr. unfold filter_by_age in Hr.
      apply (for_each_filter_inv _ (face_age_keeps class)) in Hr;
        [|intros; apply age_step_cases].
      rewrite filter_false in Hr by (intros f; by apply face_age_keeps_unknown).
      by apply Hne.
  - intros Hc. split.
    + intros Hall. rewrite (filter_by_gender_spec _ _ Hall).
      f_equal. apply filter_false. intros f. by apply face_gender_keeps_unknown.
    + intros Hne Hr. unfold filter_by_gender in Hr.
      apply (for_each_filter_inv _ (face_gender_keeps class)) in Hr;
        [|intros; apply gender_step_cases].
      rewrite filter_false in Hr by (intros f; by apply face_gender_keeps_unknown).
      by apply Hne.
  - apply sort_by_direction_unknown.
Qed.

Lemma filters_unknown_class_empty_witness :
  filter_by_age [sample_face 0 0 1 1 [] 1 20; sample_face 2 0 3 1 [] 0 70] "elder"
  = Ok []
  /\ filter_by_gender [sample_face 0 0 1 1 [] 1 20; sample_face 2 0 3 1 [] 0 70] "elder"
     = Ok []
  /\ sort_by_direction [sample_face 0 0 1 1 [] 1 20; sample_face 2 0 3 1 [] 0 70] "elder"
     = Ok [sample_face 0 0 1 1 [] 1 20; sample_face 2 0 3 1 [] 0 70].
Proof.
  destruct (filters_unknown_class_empty
              [sample_face 0 0 1 1 [] 1 20; sample_face 2 0 3 1 [] 0 70] "elder")
    as (Hage & Hgender & Hsort).
  assert (Hnot : forall known : list string,
            forallb (fun c => negb (String.eqb "elder" c)) known = true ->
            ~ In "elder" known).
  { intros known Hk Hin. rewrite forallb_forall in Hk.
    specialize (Hk _ Hin). by rewrite String.eqb_refl in Hk. }
  split; [|split].
  - apply Hage; [by apply Hnot | repeat constructor; by eexists].
  - apply Hgender; [by apply Hnot | repeat constructor; by eexists].
  - apply Hsort. by apply Hnot.
Defined.

(** ** Sorting by direction *)

Lemma Qltb_lt (x y : Q) : Qltb x y = true <-> (x < y)%Q.
Proof.
  unfold Qltb. rewrite negb_true_iff, <- not_true_iff_false, Qle_bool_iff.
  split; [apply Qnot_le_lt | apply Qlt_not_le].
Qed.

Lemma Qltb_ge (x y : Q) : Qltb x y = false <-> (y <= x)%Q.
Proof.
  unfold Qltb. by rewrite negb_false_iff, Qle_bool_iff.
Qed.

Lemma insert_by_Permutation {A : Type} (reverse : bool) (p : Q * A) (l : list (Q * A)) :
  Permutation (insert_by reverse p l) (p :: l).
Proof.
  induction l as [|q l IH]; simpl; [done|].
  destruct (goes_after reverse p q); [|done].
  rewrite IH. apply perm_swap.
Qed.

Lemma sort_by_Permutation {A : Type} (reverse : bool) (l : list (Q * A)) :
  Permutation (sort_by reverse l) l.
Proof.
  induction l as [|p l IH]; simpl; [done|].
  rewrite insert_by_Permutation. by constructor.
Qed.

(** Inserting a key that differs from all the others keeps an ascending list
    strictly ascending. *)
Lemma insert_by_ascending {A : Type} (p : Q * A) (l : list (Q * A)) :
  StronglySorted key_lt l ->
  Forall (fun q => ~ (p.1 == q.1)%Q) l ->
  StronglySorted key_lt (insert_by false p l).
Proof.
  intros Hs Hd. induction Hs as [|q l Hs IH Hq]; simpl.
  - repeat constructor.
  - inversion Hd as [|? ? Hpq Hd']; subst.
    unfold goes_after. destruct (Qltb q.1 p.1) eqn:E.
    + apply Qltb_lt in E. constructor; [by apply IH|].
      rewrite insert_by_Permutation. by constructor.
    + apply Qltb_ge in E. apply Qle_lt_or_eq in E as [E|E]; [|done].
      constructor; [by constructor|].
      constructor; [done|].
      eapply Forall_impl; [|exact Hq].
      intros r Hr. unfold key_lt in *. by eapply Qlt_trans.
Qed.

Lemma sort_by_ascending {A : Type} (l : list (Q * A)) :
  ForallOrdPairs (fun p q => ~ (p.1 == q.1)%Q) l ->
  StronglySorted key_lt (sort_by false l).
Proof.
  induction 1 as [|p l Hp _ IH]; simpl; [constructor|].
  apply insert_by_ascending; [done|].
  by rewrite sort_by_Permutation.
Qed.

(** Inserted with [reverse] set, an element with the least key goes last. *)
Lemma insert_by_reverse_least {A : Type} (p : Q * A) (l : list (Q * A)) :
  Forall (key_lt p) l -> insert_by true p l = (l ++ [p])%list.
Proof.
  induction 1 as [|q l Hq _ IH]; simpl; [done|].
  unfold goes_after. apply Qltb_lt in Hq as ->. by rewrite IH.
Qed.

(** Sorting a strictly ascending list with [reverse] set reverses it. *)
Lemma sort_by_reverse_ascending {A : Type} (l : list (Q * A)) :
  StronglySorted key_lt l -> sort_by true l = rev l.
Proof.
  induction 1 as [|p l _ IH Hp]; simpl; [done|].
  rewrite IH. apply insert_by_reverse_least.
  by rewrite <- Permutation_rev.
Qed.

(** The pairs [sorted] builds carry, next to each element, its key. *)
Lemma mapM_Ok_combine {A B : Type} (f : A -> result B) (l : list A) (ys : list B) :
  mapM f l = Ok ys -> Forall (fun p => f p.2 = Ok p.1) (combine ys l).
Proof.
  revert ys. induction l as [|x l IH]; simpl; intros ys.
  - intros [= <-]. constructor.
  - destruct (f x) as [y|] eqn:Hy; [|done]. rewrite rbind_Ok.
    destruct (mapM f l) as [ys'|]; [|done]. rewrite rbind_Ok.
    intros [= <-]. simpl. constructor; [done|]. by apply IH.
Qed.

Lemma mapM_keyed {A B : Type} (f : A -> result B) (ps : list (B * A)) :
  Forall (fun p => f p.2 = Ok p.1) ps -> mapM f (map snd ps) = Ok (map fst ps).
Proof.
  induction 1 as [|p ps Hp _ IH]; simpl; [done|].
  by rewrite Hp, rbind_Ok, IH.
Qed.

Lemma combine_fst_snd {A B : Type} (ps : list (B * A)) :
  combine (map fst ps) (map snd ps) = ps.
Proof.
  induction ps as [|[b a] ps IH]; simpl; [done|]. by rewrite IH.
Qed.

Lemma Forall_combine_fst {A : Type} (P : Q -> Prop) (keys : list Q) (l : list A) :
  Forall P keys -> Forall (fun p : Q * A => P p.1) (combine keys l).
Proof.
  intros Hk. revert l.
  induction Hk as [|k keys Hk _ IH]; intros [|x l]; simpl; constructor; auto.
Qed.

Lemma ForallOrdPairs_combine_fst {A : Type} (R : Q -> Q -> Prop) (keys : list Q)
  (l : list A) :
  ForallOrdPairs R keys ->
  ForallOrdPairs (fun p q : Q * A => R p.1 q.1) (combine keys l).
Proof.
  intros Hk. revert l.
  induction Hk as [|k keys Hk _ IH]; intros [|x l]; simpl; constructor.
  - by apply (Forall_combine_fst (R k)).
  - apply IH.
Qed.

(** Sorting by a key and then by the same key with [reverse] set gives the
    reverse, when the keys are pairwise different. *)
Lemma sorted_then_reversed {A : Type} (key : A -> result Q) (l : list A)
  (keys : list Q) :
  mapM key l = Ok keys ->
  ForallOrdPairs (fun a b => ~ (a == b)%Q) keys ->
  exists s, sorted key false l = Ok s /\ sorted key true s = Ok (rev s).
Proof.
  intros Hkeys Hdistinct.
  set (ps := sort_by false (combine keys l)).
  assert (Hsorted : StronglySorted key_lt ps).
  { apply sort_by_ascending.
    by apply (ForallOrdPairs_combine_fst (fun a b => ~ (a == b)%Q)). }
  assert (Hkeyed : Forall (fun p => key p.2 = Ok p.1) ps).
  { unfold ps. rewrite sort_by_Permutation. by apply mapM_Ok_combine. }
  exists (map snd ps). unfold sorted. split.
  - by rewrite Hkeys, rbind_Ok.
  - rewrite (mapM_keyed _ _ Hkeyed), rbind_Ok, combine_fst_snd.
    by rewrite (sort_by_reverse_ascending _ Hsorted), map_rev.
Qed.

(** C7: when every face has an [x1] and these are pairwise different, sorting
    "left-right" and then sorting the result "right-left" gives the reverse
    of the first result. *)
Theorem sort_left_right_then_right_left (faces : list Face) (x1s : list Q) :
  mapM key_x1 faces = Ok x1s ->
  ForallOrdPairs (fun a b => ~ (a == b)%Q) x1s ->
  exists ordered,
    sort_by_direction faces "left-right" = Ok ordered
    /\ sort_by_direction ordered "right-left" = Ok (rev ordered).
Proof.
  intros Hkeys Hdistinct.
  destruct (sorted_then_reversed key_x1 faces x1s Hkeys Hdistinct) as (s & Hs & Hr).
  exists s. split; [exact Hs | exact Hr].
Qed.

Lemma sort_left_right_then_right_left_witness :
  exists ordered,
    sort_by_direction [sample_face 3 0 4 1 [] 0 0; sample_face 1 0 2 1 [] 0 0;
                       sample_face 2 0 3 1 [] 0 0] "left-right" = Ok ordered
    /\ sort_by_direction ordered "right-left" = Ok (rev ordered).
Proof.
  apply (sort_left_right_then_right_left _ [3; 1; 2]%Q).
  - reflexivity.
  - repeat constructor; discriminate.
Defined.

Lemma mapM_Ok_length {A B : Type} (f : A -> result B) (l : list A) (ys : list B) :
  mapM f l = Ok ys -> length ys = length l.
Proof.
  revert ys. induction l as [|x l IH]; simpl; intros ys.
  - by intros [= <-].
  - destruct (f x) as [y|]; [|done]. rewrite rbind_Ok.
    destruct (mapM f l) as [ys'|]; [|done]. rewrite rbind_Ok.
    intros [= <-]. simpl. by rewrite (IH ys').
Qed.

Lemma combine_snd {A B : Type} (ys : list B) (l : list A) :
  length ys = length l -> map snd (combine ys l) = l.
Proof.
  revert l. induction ys as [|y ys IH]; intros [|x l]; simpl; try done.
  intros [= Hlen]. by rewrite IH.
Qed.

Lemma sorted_Permutation {A : Type} (key : A -> result Q) (reverse : bool)
  (l r : list A) :
  sorted key reverse l = Ok r -> Permutation r l.
Proof.
  unfold sorted. destruct (mapM key l) as [keys|] eqn:Hkeys; [|done].
  rewrite rbind_Ok. intros [= <-].
  rewrite sort_by_Permutation.
  by rewrite (combine_snd _ _ (mapM_Ok_length _ _ _ Hkeys)).
Qed.

(** X4: whatever the direction, [sort_by_direction] returns the faces it was
    given, in some order. *)
Theorem sort_by_direction_Permutation (faces ordered : list Face) (direction : string) :
  sort_by_direction faces direction = Ok ordered -> Permutation ordered faces.
Proof.
  unfold sort_by_direction.
  repeat (destruct (String.eqb direction _); [apply sorted_Permutation|]).
  by intros [= <-].
Qed.

Lemma sort_by_direction_Permutation_witness :
  Permutation [face_b; face_c; face_a] [face_a; face_b; face_c].
Proof.
  apply (sort_by_direction_Permutation _ _ "left-right"). reflexivity.
Defined.

(** ** The analyser handle *)

Section HandleFacts.

Variable resolve_relative_path : string -> string.
Variable Detector : Type.
Variable Session : Type.
Variable FaceDetectorYN_create :
  option string -> option string -> nat * nat -> result Detector.
Variable InferenceSession : option string -> list string -> result Session.

Local Abbreviation model_value' := (model_value resolve_relative_path).
Local Abbreviation get_face_analyser' :=
  (get_face_analyser resolve_relative_path Detector Session
     FaceDetectorYN_create InferenceSession).

Lemma model_value_paths :
  model_value' "face_detection_yunet" "path"
  = Ok (Some (resolve_relative_path "../.assets/models/face_detection_yunet_2023mar.onnx"))
  /\ model_value' "face_recognition_arcface" "path"
     = Ok (Some (resolve_relative_path "../.assets/models/w600k_r50.onnx")).
Proof. split; reflexivity. Qed.

Lemma get_face_analyser_built (s s1 : Runtime Detector Session)
  (analyser : Analyser Detector Session) :
  get_face_analyser' s = (Ok analyser, s1) ->
  FACE_ANALYSER _ _ s1 = Some analyser
  /\ (FACE_ANALYSER _ _ s = None ->
      detector_constructions _ _ s1 = S (detector_constructions _ _ s)
      /\ session_constructions _ _ s1 = S (session_constructions _ _ s))
  /\ (is_Some (FACE_ANALYSER _ _ s) -> s1 = s).
Proof.
  unfold get_face_analyser.
  destruct (FACE_ANALYSER _ _ s) as [a|] eqn:Hs.
  - intros [= <- <-]. split; [done|]. split; [done|]. done.
  - destruct model_value_paths as [-> ->].
    destruct (FaceDetectorYN_create _ _ _) as [detector|]; [|done].
    destruct (InferenceSession _ _) as [session|]; [|done].
    intros [= <- <-]. split; [done|]. split; [done|].
    by intros [a Ha].
Qed.

(** Once the analyser is built, a call returns it and changes nothing. *)
Lemma get_face_analyser_again (s s1 : Runtime Detector Session)
  (analyser : Analyser Detector Session) :
  get_face_analyser' s = (Ok analyser, s1) ->
  get_face_analyser' s1 = (Ok analyser, s1).
Proof.
  intros Hget. apply get_face_analyser_built in Hget as (Hset & _).
  unfold get_face_analyser. by rewrite Hset.
Qed.

(** A call that raised leaves no analyser, and the next call raises the
    same. *)
Lemma get_face_analyser_raises_again (s s1 : Runtime Detector Session) (e : exn) :
  get_face_analyser' s = (Raise e, s1) ->
  FACE_ANALYSER _ _ s1 = None
  /\ (get_face_analyser' s1).1 = Raise e
  /\ FACE_ANALYSER _ _ (get_face_analyser' s1).2 = None.
Proof.
  unfold get_face_analyser.
  destruct (FACE_ANALYSER _ _ s) as [a|] eqn:Hs; [done|].
  destruct model_value_paths as [-> ->].
  destruct (FaceDetectorYN_create _ _ _) as [detector|] eqn:Hd.
  - destruct (InferenceSession _ _) as [session|] eqn:Hr; [done|].
    intros [= <- <-]. cbn [FACE_ANALYSER count_session count_detector].
    rewrite Hs. cbn [execution_providers count_session count_detector] in *.
    by rewrite Hr.
  - intros [= <- <-]. cbn [FACE_ANALYSER count_detector]. by rewrite Hs.
Qed.

End HandleFacts.

(** ** The analyser *)

Section AnalyserFacts.

Variable resolve_relative_path : string -> string.
Variable FaceDetectorYN_create :
  option string -> option string -> nat * nat -> result DetectorObject.
Variable InferenceSession : option string -> list string -> result SessionObject.
Variable detect :
  DetectorObject -> Q -> nat -> nat * nat -> Frame -> result (option (list (list Q))).
Variable create_embedding : Frame -> Kps -> result Embedding.
Variable linalg_norm : Embedding -> Q.
Variable get_faces_cache : Frame -> Py (option (list Face)).
Variable set_faces_cache : Frame -> list Face -> Py unit.

Local Abbreviation get_face_analyser' :=
  (get_face_analyser resolve_relative_path DetectorObject SessionObject
     FaceDetectorYN_create InferenceSession).
Local Abbreviation extract_faces' :=
  (extract_faces resolve_relative_path FaceDetectorYN_create InferenceSession
     detect create_embedding linalg_norm).
Local Abbreviation extract_faces_result' :=
  (extract_faces_result detect create_embedding linalg_norm).
Local Abbreviation cached_faces' :=
  (cached_faces resolve_relative_path FaceDetectorYN_create InferenceSession
     detect create_embedding linalg_norm get_faces_cache set_faces_cache).
Local Abbreviation get_many_faces_try' :=
  (get_many_faces_try resolve_relative_path FaceDetectorYN_create InferenceSession
     detect create_embedding linalg_norm get_faces_cache set_faces_cache).
Local Abbreviation get_many_faces' :=
  (get_many_faces resolve_relative_path FaceDetectorYN_create InferenceSession
     detect create_embedding linalg_norm get_faces_cache set_faces_cache).
Local Abbreviation get_one_face' :=
  (get_one_face resolve_relative_path FaceDetectorYN_create InferenceSession
     detect create_embedding linalg_norm get_faces_cache set_faces_cache).
Local Abbreviation find_similar_faces' :=
  (find_similar_faces resolve_relative_path FaceDetectorYN_create InferenceSession
     detect create_embedding linalg_norm get_faces_cache set_faces_cache).

(** [extract_faces] asks for the analyser first: when that raises, the
    detector is not called; otherwise the detector is called once, and the
    result is that of the detector and of the loop. *)
Lemma extract_faces_run (frame : Frame) (w : World) :
  extract_faces' frame w
  = match get_face_analyser' (runtime w) with
    | (Ok analyser, s) =>
        (extract_faces_result' (face_detector _ _ analyser) frame,
         detector_called frame (with_runtime s w))
    | (Raise e, s) => (Raise e, with_runtime s w)
    end.
Proof.
  unfold extract_faces, extract_faces_result, detector_called, with_runtime, shape.
  unfold mbind, Py_bind, bind, world_get_face_analyser, face_detector_detect.
  destruct (get_face_analyser' (runtime w)) as [[analyser|e] s]; [|done].
  cbn [FACES_CACHE globals detector_calls runtime].
  destruct (detect _ _ _ _ frame) as [detections|e]; simpl; [|done].
  unfold lift.
  destruct (detections_any detections) as [[]|e]; simpl; [|done|done].
  by destruct (iter detections).
Qed.

(** C2, at the frame without a face: the detector returns [None], on which
    line 67 raises [AttributeError]; [extract_faces] does not return the
    empty list. *)
Theorem extract_faces_none_raises (frame : Frame) (w : World)
  (analyser : Analyser DetectorObject SessionObject)
  (s : Runtime DetectorObject SessionObject) :
  get_face_analyser' (runtime w) = (Ok analyser, s) ->
  detect (face_detector _ _ analyser) (1 # 2)%Q 100%nat
    (frame_width frame, frame_height frame) frame = Ok None ->
  extract_faces' frame w
  = (Raise AttributeError, detector_called frame (with_runtime s w)).
Proof.
  intros Hget Hdetect. rewrite extract_faces_run, Hget. f_equal.
  unfold extract_faces_result. by rewrite Hdetect.
Qed.

Lemma get_many_faces_try_stages (frame : Frame) (w : World) :
  get_many_faces_try' frame w
  = (faces ← cached_faces' frame;
     faces ← apply_direction faces;
     faces ← apply_age faces;
     faces ← apply_gender faces;
     mret faces) w.
Proof.
  unfold get_many_faces_try, cached_faces, mbind, Py_bind, bind.
  by destruct (get_faces_cache frame w) as [[faces_cache|e] w1].
Qed.

Lemma bind_run {A B : Type} (m : Py A) (k : A -> Py B) (w : World) :
  (x ← m; k x) w
  = match m w with
    | (Ok a, w') => k a w'
    | (Raise e, w') => (Raise e, w')
    end.
Proof. reflexivity. Qed.

Lemma bind_run_Ok {A B : Type} (m : Py A) (k : A -> Py B) (w w' : World) (a : A) :
  m w = (Ok a, w') -> (x ← m; k x) w = k a w'.
Proof. intros H. by rewrite bind_run, H. Qed.

Lemma bind_run_Raise {A B : Type} (m : Py A) (k : A -> Py B) (w w' : World) (e : exn) :
  m w = (Raise e, w') -> (x ← m; k x) w = (Raise e, w').
Proof. intros H. by rewrite bind_run, H. Qed.

(** An [AttributeError] or [ValueError] of the body becomes the empty list. *)
Lemma get_many_faces_caught (frame : Frame) (w w' : World) (e : exn) :
  e = AttributeError \/ e = ValueError ->
  get_many_faces_try' frame w = (Raise e, w') ->
  get_many_faces' frame w = (Ok [], w').
Proof.
  intros He Htry. unfold get_many_faces, try_except_attribute_value.
  rewrite Htry. by destruct He as [-> | ->].
Qed.

Lemma get_many_faces_never_raises_caught (frame : Frame) (w : World) (e : exn) :
  e = AttributeError \/ e = ValueError ->
  (get_many_faces' frame w).1 <> Raise e.
Proof.
  intros He. unfold get_many_faces, try_except_attribute_value.
  destruct (get_many_faces_try' frame w) as [[faces|e'] w'].
  - done.
  - destruct e', He as [-> | ->]; done.
Qed.

(** C4: an [AttributeError] or a [ValueError] raised at any stage of the
    cached query (the cache lookup, the extraction, the cache store, the sort,
    the age filter, the gender filter) is swallowed: [get_many_faces] returns
    the empty list, and it never raises either of the two. *)
Theorem get_many_faces_swallows (frame : Frame) (w : World) (e : exn) :
  e = AttributeError \/ e = ValueError ->
  (forall w', get_faces_cache frame w = (Raise e, w') ->
     get_many_faces' frame w = (Ok [], w'))
  /\ (forall c w1 w',
        get_faces_cache frame w = (Ok c, w1) -> truthy_opt c = false ->
        extract_faces' frame w1 = (Raise e, w') ->
        get_many_faces' frame w = (Ok [], w'))
  /\ (forall c w1 faces w2 w',
        get_faces_cache frame w = (Ok c, w1) -> truthy_opt c = false ->
        extract_faces' frame w1 = (Ok faces, w2) ->
        set_faces_cache frame faces w2 = (Raise e, w') ->
        get_many_faces' frame w = (Ok [], w'))
  /\ (forall f0 w1,
        cached_faces' frame w = (Ok f0, w1) ->
        (forall w', apply_direction f0 w1 = (Raise e, w') ->
           get_many_faces' frame w = (Ok [], w'))
        /\ (forall f1 w2,
              apply_direction f0 w1 = (Ok f1, w2) ->
              (forall w', apply_age f1 w2 = (Raise e, w') ->
                 get_many_faces' frame w = (Ok [], w'))
              /\ (forall f2 w3 w',
                    apply_age f1 w2 = (Ok f2, w3) ->
                    apply_gender f2 w3 = (Raise e, w') ->
                    get_many_faces' frame w = (Ok [], w'))))
  /\ (forall w', get_many_faces_try' frame w = (Raise e, w') ->
        get_many_faces' frame w = (Ok [], w'))
  /\ (get_many_faces' frame w).1 <> Raise e.
Proof.
  intros He.
  assert (Htry : forall w', get_many_faces_try' frame w = (Raise e, w') ->
            get_many_faces' frame w = (Ok [], w'))
    by (intros w'; by apply get_many_faces_caught).
  assert (Hcached : forall w', cached_faces' frame w = (Raise e, w') ->
            get_many_faces' frame w = (Ok [], w')).
  { intros w' Hc. apply Htry.
    rewrite get_many_faces_try_stages. by apply bind_run_Raise. }
  split; [|split; [|split; [|split; [|split]]]].
  - intros w' Hget. apply Hcached. unfold cached_faces.
    by apply bind_run_Raise.
  - intros c w1 w' Hget Hc Hextract. apply Hcached. unfold cached_faces.
    rewrite (bind_run_Ok _ _ _ _ _ Hget), Hc. by apply bind_run_Raise.
  - intros c w1 faces w2 w' Hget Hc Hextract Hset. apply Hcached.
    unfold cached_faces.
    rewrite (bind_run_Ok _ _ _ _ _ Hget), Hc, (bind_run_Ok _ _ _ _ _ Hextract).
    by apply bind_run_Raise.
  - intros f0 w1 Hloaded. split; [|intros f1 w2 Hsorted; split].
    + intros w' Hdir. apply Htry.
      rewrite get_many_faces_try_stages, (bind_run_Ok _ _ _ _ _ Hloaded).
      by apply bind_run_Raise.
    + intros w' Hage. apply Htry.
      rewrite get_many_faces_try_stages, (bind_run_Ok _ _ _ _ _ Hloaded),
        (bind_run_Ok _ _ _ _ _ Hsorted).
      by apply bind_run_Raise.
    + intros f2 w3 w' Hage Hgender. apply Htry.
      rewrite get_many_faces_try_stages, (bind_run_Ok _ _ _ _ _ Hloaded),
        (bind_run_Ok _ _ _ _ _ Hsorted), (bind_run_Ok _ _ _ _ _ Hage).
      by apply bind_run_Raise.
  - exact Htry.
  - by apply get_many_faces_never_raises_caught.
Qed.

(** *** get_one_face *)

Lemma getitem_nonneg {A : Type} (l : list A) (i : Z) :
  0 <= i < Z.of_nat (length l) ->
  exists x, l !! Z.to_nat i = Some x /\ getitem l i = Ok x.
Proof.
  intros Hi. unfold getitem.
  destruct (lookup_lt_is_Some_2 l (Z.to_nat i)) as [x Hx]; [lia|].
  exists x. split; [done|].
  replace (i <? 0) with false by lia.
  replace ((i <? 0) || (Z.of_nat (length l) <=? i)) with false by lia.
  by rewrite Hx.
Qed.

Lemma getitem_negative {A : Type} (l : list A) (i : Z) :
  - Z.of_nat (length l) <= i < 0 ->
  exists x, l !! Z.to_nat (Z.of_nat (length l) + i) = Some x /\ getitem l i = Ok x.
Proof.
  intros Hi. unfold getitem.
  destruct (lookup_lt_is_Some_2 l (Z.to_nat (Z.of_nat (length l) + i))) as [x Hx];
    [lia|].
  exists x. split; [done|].
  replace (i <? 0) with true by lia.
  replace ((i + Z.of_nat (length l) <? 0)
           || (Z.of_nat (length l) <=? i + Z.of_nat (length l))) with false by lia.
  by rewrite Z.add_comm, Hx.
Qed.

Lemma getitem_out_of_range {A : Type} (l : list A) (i : Z) :
  i < - Z.of_nat (length l) \/ Z.of_nat (length l) <= i ->
  getitem l i = Raise IndexError.
Proof.
  intros Hi. unfold getitem.
  destruct (i <? 0) eqn:E.
  - replace ((i + Z.of_nat (length l) <? 0)
             || (Z.of_nat (length l) <=? i + Z.of_nat (length l))) with true by lia.
    done.
  - replace ((i <? 0) || (Z.of_nat (length l) <=? i)) with true by lia. done.
Qed.

Lemma getitem_last {A : Type} (l : list A) :
  l <> [] -> exists x, list.last l = Some x /\ getitem l (-1) = Ok x.
Proof.
  intros Hl.
  destruct (getitem_negative l (-1)) as (x & Hx & Hget).
  { destruct l; [done|]. simpl. lia. }
  exists x. split; [|done].
  rewrite last_lookup. rewrite <- Hx. f_equal. lia.
Qed.

(** C6: [get_one_face] returns the face of [get_many_faces] at the position,
    counted from the end when the position is negative; the last face when
    the position is out of range; nothing when there is no face. *)
Theorem get_one_face_position (frame : Frame) (position : Z) (w w' : World)
  (many_faces : list Face) :
  get_many_faces' frame w = (Ok many_faces, w') ->
  (many_faces = [] -> get_one_face' frame position w = (Ok None, w'))
  /\ (0 <= position < Z.of_nat (length many_faces) ->
      get_one_face' frame position w
      = (Ok (many_faces !! Z.to_nat position), w'))
  /\ (- Z.of_nat (length many_faces) <= position < 0 ->
      get_one_face' frame position w
      = (Ok (many_faces !! Z.to_nat (Z.of_nat (length many_faces) + position)), w'))
  /\ (many_faces <> [] ->
      position < - Z.of_nat (length many_faces)
      \/ Z.of_nat (length many_faces) <= position ->
      get_one_face' frame position w = (Ok (list.last many_faces), w')).
Proof.
  intros Hmany. unfold get_one_face. rewrite (bind_run_Ok _ _ _ _ _ Hmany).
  assert (Hin : forall face, getitem many_faces position = Ok face ->
            many_faces <> [] ->
            (if truthy many_faces
             then try_except_index
                    (face ← lift (getitem many_faces position); mret (Some face))
                    (face ← lift (getitem many_faces (-1)); mret (Some face))
             else mret None) w' = (Ok (Some face), w')).
  { intros face Hget Hne. destruct many_faces; [done|]. simpl.
    unfold try_except_index. rewrite bind_run. unfold lift. by rewrite Hget. }
  split; [|split; [|split]].
  - by intros ->.
  - intros Hpos. destruct (getitem_nonneg many_faces position Hpos) as (x & -> & Hget).
    apply Hin; [done|]. intros ->. simpl in Hpos. lia.
  - intros Hpos. destruct (getitem_negative many_faces position Hpos) as (x & -> & Hget).
    apply Hin; [done|]. intros ->. simpl in Hpos. lia.
  - intros Hne Hpos.
    destruct (getitem_last many_faces Hne) as (x & -> & Hlast).
    destruct many_faces; [done|]. cbn [truthy].
    unfold try_except_index. rewrite bind_run. unfold lift.
    rewrite (getitem_out_of_range _ _ Hpos).
    rewrite bind_run. by rewrite Hlast.
Qed.

(** *** find_similar_faces *)

Lemma similar_step_keeps (reference_face : Face) (face_distance : Q) (face : Face)
  (acc : list Face) :
  same_length_as reference_face face ->
  similar_step reference_face face_distance face acc
  = Ok (if is_similar reference_face face_distance face then append acc face else acc).
Proof.
  intros Hlen. unfold similar_step, is_similar, hasattr, getattr.
  destruct (normed_embedding face) as [a|] eqn:Ha; [|done].
  destruct (normed_embedding reference_face) as [b|] eqn:Hb; [|done].
  simpl. unfold numpy_dot.
  rewrite (Hlen a b Ha Hb), Nat.eqb_refl, rbind_Ok.
  by destruct (Qltb _ _).
Qed.

(** On faces whose normed embeddings have the reference's length,
    [find_similar_faces] computes the filter by [is_similar]. *)
Lemma find_similar_faces_run (frame : Frame) (reference_face : Face)
  (face_distance : Q) (w w' : World) (many_faces : list Face) :
  get_many_faces' frame w = (Ok many_faces, w') ->
  Forall (same_length_as reference_face) many_faces ->
  find_similar_faces' frame reference_face face_distance w
  = (Ok (List.filter (is_similar reference_face face_distance) many_faces), w').
Proof.
  intros Hmany Hlen.
  unfold find_similar_faces. rewrite (bind_run_Ok _ _ _ _ _ Hmany).
  destruct many_faces as [|face faces]; [done|].
  cbn [truthy]. unfold lift. f_equal.
  apply (for_each_filter (similar_step reference_face face_distance)
           (is_similar reference_face face_distance)
           (same_length_as reference_face) (face :: faces) []); [|done].
  intros. by apply similar_step_keeps.
Qed.

Lemma is_similar_iff (reference_face : Face) (face_distance : Q) (face : Face) :
  is_similar reference_face face_distance face = true
  <-> exists a b,
        normed_embedding face = Some a
        /\ normed_embedding reference_face = Some b
        /\ (1 - dot_sum a b < face_distance)%Q.
Proof.
  unfold is_similar.
  destruct (normed_embedding face) as [a|];
    destruct (normed_embedding reference_face) as [b|].
  - rewrite Qltb_lt. split.
    + intros Hlt. by exists a, b.
    + by intros (a' & b' & [= <-] & [= <-] & Hlt).
  - split; [done|]. by intros (a' & b' & _ & ? & _).
  - split; [done|]. by intros (a' & b' & ? & _).
  - split; [done|]. by intros (a' & b' & ? & _).
Qed.

(** C5: [find_similar_faces] returns, in their order, the faces of
    [get_many_faces] for which both the face and the reference have a normed
    embedding and 1 minus their dot product is less than the threshold; a
    face without a normed embedding is left out.  The normed embeddings that
    are present have the length of the reference's. *)
Theorem find_similar_faces_filter (frame : Frame) (reference_face : Face)
  (face_distance : Q) (w w' : World) (many_faces : list Face) :
  get_many_faces' frame w = (Ok many_faces, w') ->
  Forall (same_length_as reference_face) many_faces ->
  find_similar_faces' frame reference_face face_distance w
  = (Ok (List.filter (is_similar reference_face face_distance) many_faces), w')
  /\ (forall face,
        In face (List.filter (is_similar reference_face face_distance) many_faces)
        <-> In face many_faces
            /\ exists a b,
                normed_embedding face = Some a
                /\ normed_embedding reference_face = Some b
                /\ (1 - dot_sum a b < face_distance)%Q).
Proof.
  intros Hmany Hlen. split.
  - by apply find_similar_faces_run.
  - intros face. by rewrite filter_In, is_similar_iff.
Qed.

(** X1: raising the threshold never removes a face from the result of
    [find_similar_faces]. *)
Theorem find_similar_faces_monotone (frame : Frame) (reference_face : Face)
  (d1 d2 : Q) (w w' : World) (many_faces : list Face) :
  get_many_faces' frame w = (Ok many_faces, w') ->
  Forall (same_length_as reference_face) many_faces ->
  (d1 <= d2)%Q ->
  exists near far,
    find_similar_faces' frame reference_face d1 w = (Ok near, w')
    /\ find_similar_faces' frame reference_face d2 w = (Ok far, w')
    /\ forall face, In face near -> In face far.
Proof.
  intros Hmany Hlen Hle.
  exists (List.filter (is_similar reference_face d1) many_faces),
         (List.filter (is_similar reference_face d2) many_faces).
  split; [by apply find_similar_faces_run|].
  split; [by apply find_similar_faces_run|].
  intros face. rewrite !filter_In, !is_similar_iff.
  intros [Hin (a & b & Ha & Hb & Hlt)]. split; [done|].
  exists a, b. repeat split; try done. by eapply Qlt_le_trans.
Qed.

(** *** Repeated queries *)

Lemma refine_run (faces : list Face) (w : World) :
  (faces ← apply_direction faces;
   faces ← apply_age faces;
   faces ← apply_gender faces;
   mret faces) w
  = (refine_result (globals w) faces, w).
Proof.
  unfold apply_direction, apply_age, apply_gender, read_global, refine_result.
  unfold mbind, Py_bind, bind, result_bind, rbind, lift, mret, Py_ret, ret.
  destruct (truthy_str (face_analyser_direction (globals w)));
    [destruct (sort_by_direction _ _) as [f1|]; [|done]|];
    (destruct (truthy_str (face_analyser_age (globals w)));
     [destruct (filter_by_age _ _) as [f2|]; [|done]|]);
    (destruct (truthy_str (face_analyser_gender (globals w)));
     [by destruct (filter_by_gender _ _)|done]).
Qed.

Lemma get_many_faces_run (frame : Frame) (w : World) :
  get_many_faces' frame w
  = match cached_faces' frame w with
    | (Ok faces, w1) => (caught (refine_result (globals w1) faces), w1)
    | (Raise e, w1) => (caught (Raise e), w1)
    end.
Proof.
  unfold get_many_faces, try_except_attribute_value.
  rewrite get_many_faces_try_stages, bind_run.
  destruct (cached_faces' frame w) as [[faces|e] w1].
  - rewrite refine_run. unfold caught.
    by destruct (refine_result (globals w1) faces) as [|[]].
  - by destruct e.
Qed.

End AnalyserFacts.

(** ** The analyser over the frame cache *)

Section CachedAnalyser.

Variable resolve_relative_path : string -> string.
Variable FaceDetectorYN_create :
  option string -> option string -> nat * nat -> result DetectorObject.
Variable InferenceSession : option string -> list string -> result SessionObject.
Variable detect :
  DetectorObject -> Q -> nat -> nat * nat -> Frame -> result (option (list (list Q))).
Variable create_embedding : Frame -> Kps -> result Embedding.
Variable linalg_norm : Embedding -> Q.

Local Abbreviation get_face_analyser' :=
  (get_face_analyser resolve_relative_path DetectorObject SessionObject
     FaceDetectorYN_create InferenceSession).
Local Abbreviation extracted :=
  (extract_faces_result detect create_embedding linalg_norm).
Local Abbreviation extract_faces' :=
  (extract_faces resolve_relative_path FaceDetectorYN_create InferenceSession
     detect create_embedding linalg_norm).
Local Abbreviation cached_get_many_faces :=
  (get_many_faces resolve_relative_path FaceDetectorYN_create InferenceSession
     detect create_embedding linalg_norm
     face_cache.get_faces_cache face_cache.set_faces_cache).

(** One call over the frame cache: a non-empty entry is returned as it is;
    otherwise the analyser is asked for, the detector runs when the analyser
    is there, and the faces are stored when the extraction returns. *)
Lemma cached_get_many_faces_run (frame : Frame) (w : World) :
  cached_get_many_faces frame w
  = if truthy_opt (FACES_CACHE w !! frame)
    then (caught (refine_result (globals w) (default [] (FACES_CACHE w !! frame))), w)
    else match get_face_analyser' (runtime w) with
         | (Ok analyser, s) =>
             match extracted (face_detector _ _ analyser) frame with
             | Ok faces =>
                 (caught (refine_result (globals w) faces),
                  stored frame faces (detector_called frame (with_runtime s w)))
             | Raise e =>
                 (caught (Raise e), detector_called frame (with_runtime s w))
             end
         | (Raise e, s) => (caught (Raise e), with_runtime s w)
         end.
Proof.
  rewrite get_many_faces_run. unfold cached_faces.
  rewrite bind_run. unfold face_cache.get_faces_cache.
  destruct (truthy_opt (FACES_CACHE w !! frame)); [done|].
  rewrite bind_run, extract_faces_run.
  destruct (get_face_analyser' (runtime w)) as [[analyser|e] s]; [|done].
  by destruct (extracted _ frame).
Qed.

(** C1, as the code has it: a second call on the unchanged frame returns what
    the first call returned; on a miss the result of [extract_faces], when it
    returns one, is stored before returning; the second call is served from
    the stored entry, without a call of the detector, when the entry is not
    empty; when the entry is empty or absent the second call runs
    [extract_faces] again, which calls the detector once more when the
    analyser is built and does not call it when the analyser cannot be
    built. *)
Theorem get_many_faces_twice (frame : Frame) (w : World) :
  let first := cached_get_many_faces frame w in
  let second := cached_get_many_faces frame first.2 in
  second.1 = first.1
  /\ (forall faces w',
        truthy_opt (FACES_CACHE w !! frame) = false ->
        extract_faces' frame w = (Ok faces, w') ->
        w' = detector_called frame (with_runtime (runtime w') w)
        /\ first.2 = stored frame faces w'
        /\ FACES_CACHE first.2 !! frame = Some faces)
  /\ (forall face faces,
        FACES_CACHE first.2 !! frame = Some (face :: faces) ->
        second.2 = first.2)
  /\ (truthy_opt (FACES_CACHE first.2 !! frame) = false ->
      is_Some (FACE_ANALYSER _ _ (runtime first.2)) ->
      detector_calls second.2 = frame :: detector_calls first.2)
  /\ (truthy_opt (FACES_CACHE first.2 !! frame) = false ->
      FACE_ANALYSER _ _ (runtime first.2) = None ->
      detector_calls second.2 = detector_calls first.2).
Proof.
  cbv zeta. rewrite (cached_get_many_faces_run frame w).
  destruct (truthy_opt (FACES_CACHE w !! frame)) eqn:Hhit.
  - (* served from the cache *)
    cbn [fst snd]. rewrite (cached_get_many_faces_run frame w), Hhit. cbn [fst snd].
    repeat split; done.
  - destruct (get_face_analyser' (runtime w)) as [[analyser|e] s] eqn:Hget.
    + pose proof (get_face_analyser_again _ _ _ _ _ _ _ _ Hget) as Hagain.
      pose proof (get_face_analyser_built _ _ _ _ _ _ _ _ Hget) as (Hset & _).
      destruct (extracted (face_detector _ _ analyser) frame) as [faces|e] eqn:Hextract.
      * (* extracted and stored *)
        cbn [fst snd].
        rewrite (cached_get_many_faces_run frame (stored frame faces _)).
        cbn [stored detector_called with_runtime FACES_CACHE globals detector_calls runtime].
        rewrite lookup_insert_eq.
        assert (Hstored : forall faces' w',
                  extract_faces' frame w = (Ok faces', w') ->
                  w' = detector_called frame (with_runtime (runtime w') w)
                  /\ stored frame faces (detector_called frame (with_runtime s w))
                     = stored frame faces' w'
                  /\ Some faces = Some faces').
        { intros faces' w'. rewrite extract_faces_run, Hget, Hextract.
          by intros [= <- <-]. }
        destruct faces as [|face faces]; cbn [truthy_opt truthy default].
        -- rewrite Hagain, Hextract.
           cbn [fst snd detector_calls stored detector_called with_runtime].
           split; [done|]. split; [intros; by apply Hstored|].
           split; [done|]. split; [done|].
           intros _ Hnone. by rewrite Hset in Hnone.
        -- cbn [fst snd]. split; [done|]. split; [intros; by apply Hstored|].
           repeat split; done.
      * (* the extraction raised: nothing is stored *)
        cbn [fst snd].
        rewrite (cached_get_many_faces_run frame (detector_called frame _)).
        cbn [detector_called with_runtime FACES_CACHE globals detector_calls runtime].
        rewrite Hhit, Hagain, Hextract. cbn [fst snd detector_calls detector_called with_runtime].
        split; [done|]. split.
        { intros faces w' _. rewrite extract_faces_run, Hget, Hextract. done. }
        split.
        { intros face faces Hsome. by rewrite Hsome in Hhit. }
        split; [done|].
        intros _ Hnone. by rewrite Hset in Hnone.
    + (* the analyser could not be built: the detector is not called *)
      pose proof (get_face_analyser_raises_again _ _ _ _ _ _ _ _ Hget)
        as (Hnone & Hraise & _).
      cbn [fst snd].
      rewrite (cached_get_many_faces_run frame (with_runtime s w)).
      cbn [with_runtime FACES_CACHE globals detector_calls runtime].
      rewrite Hhit.
      destruct (get_face_analyser' s) as [[analyser|e'] s'] eqn:Hget'.
      { by cbn [fst] in Hraise. }
      cbn [fst] in Hraise. injection Hraise as ->.
      cbn [fst snd detector_calls with_runtime].
      split; [done|]. split.
      { intros faces w' _. rewrite extract_faces_run, Hget. done. }
      split.
      { intros face faces Hsome. by rewrite Hsome in Hhit. }
      split; [|done].
      intros _ [a Ha]. by rewrite Hnone in Ha.
Qed.

Lemma refine_result_nil (g : Globals) : refine_result g [] = Ok [].
Proof.
  unfold refine_result.
  assert (Hsort : forall d, sort_by_direction [] d = Ok []).
  { intros d. unfold sort_by_direction.
    by repeat (destruct (String.eqb d _); [done|]). }
  destruct (truthy_str (face_analyser_direction g)); rewrite ?Hsort, rbind_Ok;
    destruct (truthy_str (face_analyser_age g)); cbn;
    by destruct (truthy_str (face_analyser_gender g)).
Qed.

(** X2: on a frame that is not served from the cache and on which the
    detector finds no face, so that it returns [None], [get_many_faces]
    returns the empty list, because the [AttributeError] of line 67 is
    swallowed; nothing is stored in the cache, and [get_one_face] returns
    nothing. *)
Theorem no_detection_no_face (frame : Frame) (position : Z) (w : World)
  (analyser : Analyser DetectorObject SessionObject)
  (s : Runtime DetectorObject SessionObject) :
  truthy_opt (FACES_CACHE w !! frame) = false ->
  get_face_analyser' (runtime w) = (Ok analyser, s) ->
  detect (face_detector _ _ analyser) (1 # 2)%Q 100%nat
    (frame_width frame, frame_height frame) frame = Ok None ->
  cached_get_many_faces frame w
  = (Ok [], detector_called frame (with_runtime s w))
  /\ FACES_CACHE (cached_get_many_faces frame w).2 = FACES_CACHE w
  /\ get_one_face resolve_relative_path FaceDetectorYN_create InferenceSession
       detect create_embedding linalg_norm
       face_cache.get_faces_cache face_cache.set_faces_cache frame position w
     = (Ok None, detector_called frame (with_runtime s w)).
Proof.
  intros Hmiss Hget Hdetect.
  assert (Hmany : cached_get_many_faces frame w
                  = (Ok [], detector_called frame (with_runtime s w))).
  { rewrite cached_get_many_faces_run, Hmiss, Hget.
    unfold extract_faces_result. by rewrite Hdetect. }
  split; [done|]. split; [by rewrite Hmany|].
  unfold get_one_face. by rewrite (bind_run_Ok _ _ _ _ _ Hmany).
Qed.

End CachedAnalyser.

(** ** Concrete runs *)

(** C1, as the spec has it, fails: on a frame without a face the detector
    returns [None], the first call returns the empty list and stores nothing,
    and the second call runs the detector again. *)
Lemma get_many_faces_no_face_detects_again :
  (get_many_faces resolve_here detector_ok session_ok detect_nothing embed_axis norm_axis
     face_cache.get_faces_cache face_cache.set_faces_cache frame0 world0).1 = Ok []
  /\ FACES_CACHE
       (get_many_faces resolve_here detector_ok session_ok detect_nothing embed_axis
          norm_axis face_cache.get_faces_cache face_cache.set_faces_cache
          frame0 world0).2
     !! frame0 = None
  /\ detector_calls
       (get_many_faces resolve_here detector_ok session_ok detect_nothing embed_axis
          norm_axis face_cache.get_faces_cache face_cache.set_faces_cache
          frame0 world0).2
     = [frame0]
  /\ detector_calls
       (get_many_faces resolve_here detector_ok session_ok detect_nothing embed_axis
          norm_axis face_cache.get_faces_cache face_cache.set_faces_cache frame0
          (get_many_faces resolve_here detector_ok session_ok detect_nothing embed_axis
             norm_axis face_cache.get_faces_cache face_cache.set_faces_cache
             frame0 world0).2).2
     = [frame0; frame0].
Proof. repeat split; vm_compute; reflexivity. Qed.

Lemma get_many_faces_twice_witness :
  (get_many_faces resolve_here detector_ok session_ok detect_one embed_axis norm_axis
     face_cache.get_faces_cache face_cache.set_faces_cache frame0
     (get_many_faces resolve_here detector_ok session_ok detect_one embed_axis norm_axis
        face_cache.get_faces_cache face_cache.set_faces_cache frame0 world0).2).1
  = (get_many_faces resolve_here detector_ok session_ok detect_one embed_axis norm_axis
       face_cache.get_faces_cache face_cache.set_faces_cache frame0 world0).1
  /\ detector_calls
       (get_many_faces resolve_here detector_ok session_ok detect_one embed_axis norm_axis
          face_cache.get_faces_cache face_cache.set_faces_cache frame0
          (get_many_faces resolve_here detector_ok session_ok detect_one embed_axis
             norm_axis face_cache.get_faces_cache face_cache.set_faces_cache
             frame0 world0).2).2
     = [frame0]
  /\ detector_calls
       (get_many_faces resolve_here detector_ok session_fails detect_one embed_axis
          norm_axis face_cache.get_faces_cache face_cache.set_faces_cache frame0
          (get_many_faces resolve_here detector_ok session_fails detect_one embed_axis
             norm_axis face_cache.get_faces_cache face_cache.set_faces_cache
             frame0 world0).2).2
     = [].
Proof.
  destruct (get_many_faces_twice resolve_here detector_ok session_ok
              detect_one embed_axis norm_axis frame0 world0)
    as (Hsame & Hstored & Hserved & _).
  destruct (get_many_faces_twice resolve_here detector_ok session_fails
              detect_one embed_axis norm_axis frame0 world0)
    as (_ & _ & _ & _ & Hunbuilt).
  split; [exact Hsame|]. split.
  - erewrite Hserved; vm_compute; reflexivity.
  - rewrite Hunbuilt; vm_compute; reflexivity.
Defined.

Lemma extract_faces_none_raises_witness :
  extract_faces resolve_here detector_ok session_ok detect_nothing embed_axis norm_axis
    frame0 world0
  = (Raise AttributeError, detector_called frame0 (with_runtime runtime_built world0)).
Proof.
  apply (extract_faces_none_raises resolve_here detector_ok session_ok
           detect_nothing embed_axis norm_axis
           frame0 world0 (mkAnalyser nat nat 1%nat 2%nat) runtime_built);
    reflexivity.
Defined.

Lemma get_many_faces_swallows_witness :
  get_many_faces resolve_here detector_ok session_ok detect_nothing embed_axis norm_axis
    face_cache.get_faces_cache face_cache.set_faces_cache frame0 world_ageless
  = (Ok [], world_ageless).
Proof.
  destruct (get_many_faces_swallows resolve_here detector_ok session_ok
      detect_nothing embed_axis norm_axis
              face_cache.get_faces_cache face_cache.set_faces_cache
              frame0 world_ageless AttributeError (or_introl eq_refl))
    as (_ & _ & _ & Hstages & _).
  destruct (Hstages [face_a; face_without_age] world_ageless) as [_ Hsorted];
    [vm_compute; reflexivity|].
  destruct (Hsorted [face_a; face_without_age] world_ageless) as [Hage _];
    [vm_compute; reflexivity|].
  apply Hage. vm_compute; reflexivity.
Defined.

Lemma find_similar_faces_filter_witness :
  find_similar_faces resolve_here detector_ok session_ok
      detect_nothing embed_axis norm_axis
    face_cache.get_faces_cache face_cache.set_faces_cache
    frame0 face_a (1 # 2) world_cached
  = (Ok [face_a], world_cached).
Proof.
  refine (proj1 (find_similar_faces_filter resolve_here detector_ok session_ok
      detect_nothing embed_axis norm_axis
                   face_cache.get_faces_cache face_cache.set_faces_cache
                   frame0 face_a (1 # 2) world_cached world_cached
                   [face_a; face_b; face_c] _ _)).
  - vm_compute; reflexivity.
  - repeat constructor; intros a b; vm_compute; intros [= <-] [= <-]; reflexivity.
Defined.

Lemma get_one_face_position_witness :
  get_one_face resolve_here detector_ok session_ok detect_nothing embed_axis norm_axis
    face_cache.get_faces_cache face_cache.set_faces_cache frame0 1 world_cached
  = (Ok (Some face_b), world_cached)
  /\ get_one_face resolve_here detector_ok session_ok detect_nothing embed_axis norm_axis
       face_cache.get_faces_cache face_cache.set_faces_cache frame0 (-1) world_cached
     = (Ok (Some face_c), world_cached)
  /\ get_one_face resolve_here detector_ok session_ok detect_nothing embed_axis norm_axis
       face_cache.get_faces_cache face_cache.set_faces_cache frame0 7 world_cached
     = (Ok (Some face_c), world_cached).
Proof.
  assert (Hmany : get_many_faces resolve_here detector_ok session_ok
      detect_nothing embed_axis norm_axis
                    face_cache.get_faces_cache face_cache.set_faces_cache
                    frame0 world_cached
                  = (Ok [face_a; face_b; face_c], world_cached))
    by (vm_compute; reflexivity).
  split; [|split].
  - destruct (get_one_face_position _ _ _ _ _ _ _ _ _ 1 _ _ _ Hmany) as (_ & Hat & _).
    apply Hat. simpl. lia.
  - destruct (get_one_face_position _ _ _ _ _ _ _ _ _ (-1) _ _ _ Hmany) as (_ & _ & Hat & _).
    apply Hat. simpl. lia.
  - destruct (get_one_face_position _ _ _ _ _ _ _ _ _ 7 _ _ _ Hmany) as (_ & _ & _ & Hlast).
    apply Hlast; [done | simpl; lia].
Defined.

Lemma find_similar_faces_monotone_witness :
  exists near far,
    find_similar_faces resolve_here detector_ok session_ok
        detect_nothing embed_axis norm_axis
      face_cache.get_faces_cache face_cache.set_faces_cache
      frame0 face_a (1 # 2) world_cached = (Ok near, world_cached)
    /\ find_similar_faces resolve_here detector_ok session_ok
        detect_nothing embed_axis norm_axis
         face_cache.get_faces_cache face_cache.set_faces_cache
         frame0 face_a 2 world_cached = (Ok far, world_cached)
    /\ forall face, In face near -> In face far.
Proof.
  apply (find_similar_faces_monotone resolve_here detector_ok session_ok
      detect_nothing embed_axis norm_axis
           face_cache.get_faces_cache face_cache.set_faces_cache
           frame0 face_a (1 # 2) 2 world_cached world_cached
           [face_a; face_b; face_c]).
  - vm_compute; reflexivity.
  - repeat constructor; intros a b; vm_compute; intros [= <-] [= <-]; reflexivity.
  - discriminate.
Defined.

Lemma no_detection_no_face_witness :
  get_many_faces resolve_here detector_ok session_ok detect_nothing embed_axis norm_axis
    face_cache.get_faces_cache face_cache.set_faces_cache frame0 world0
  = (Ok [], detector_called frame0 (with_runtime runtime_built world0))
  /\ FACES_CACHE
       (get_many_faces resolve_here detector_ok session_ok detect_nothing embed_axis
          norm_axis face_cache.get_faces_cache face_cache.set_faces_cache
          frame0 world0).2
     = FACES_CACHE world0
  /\ get_one_face resolve_here detector_ok session_ok detect_nothing embed_axis norm_axis
       face_cache.get_faces_cache face_cache.set_faces_cache frame0 0 world0
     = (Ok None, detector_called frame0 (with_runtime runtime_built world0)).
Proof.
  apply (no_detection_no_face resolve_here detector_ok session_ok
           detect_nothing embed_axis norm_axis frame0 0 world0
           (mkAnalyser nat nat 1%nat 2%nat) runtime_built);
    reflexivity.
Defined.

(** * Further properties *)

(** ** The order and the stability of the sort *)

Lemma sort_by_direction_sorted (faces : list Face) (direction : string) :
  In direction directions ->
  sort_by_direction faces direction
  = sorted (direction_key direction) (direction_reversed direction) faces.
Proof.
  unfold directions. simpl.
  intros [<- | [<- | [<- | [<- | [<- | [<- | []]]]]]]; reflexivity.
Qed.

Lemma insert_by_ordered {A : Type} (reverse : bool) (p : Q * A) (l : list (Q * A)) :
  StronglySorted (fun a b => key_order reverse a.1 b.1) l ->
  StronglySorted (fun a b => key_order reverse a.1 b.1) (insert_by reverse p l).
Proof.
  intros Hs. induction Hs as [|q l Hs IH Hq]; simpl.
  - repeat constructor.
  - unfold goes_after. destruct reverse.
    + destruct (Qltb p.1 q.1) eqn:E.
      * apply Qltb_lt in E. constructor; [done|].
        rewrite insert_by_Permutation. constructor; [|done].
        by apply Qlt_le_weak.
      * apply Qltb_ge in E. constructor; [by constructor|].
        constructor; [done|].
        eapply Forall_impl; [|exact Hq].
        intros r Hr. simpl in *. by eapply Qle_trans.
    + destruct (Qltb q.1 p.1) eqn:E.
      * apply Qltb_lt in E. constructor; [done|].
        rewrite insert_by_Permutation. constructor; [|done].
        by apply Qlt_le_weak.
      * apply Qltb_ge in E. constructor; [by constructor|].
        constructor; [done|].
        eapply Forall_impl; [|exact Hq].
        intros r Hr. simpl in *. by eapply Qle_trans.
Qed.

Lemma sort_by_ordered {A : Type} (reverse : bool) (l : list (Q * A)) :
  StronglySorted (fun a b => key_order reverse a.1 b.1) (sort_by reverse l).
Proof.
  induction l as [|p l IH]; simpl; [constructor|]. by apply insert_by_ordered.
Qed.

Lemma StronglySorted_map_fst {A : Type} (R : Q -> Q -> Prop) (ps : list (Q * A)) :
  StronglySorted (fun a b => R a.1 b.1) ps -> StronglySorted R (map fst ps).
Proof.
  induction 1 as [|p ps _ IH Hp]; simpl; constructor; [done|].
  apply List.Forall_map. exact Hp.
Qed.

Lemma sorted_ordered {A : Type} (key : A -> result Q) (reverse : bool)
  (l r : list A) :
  sorted key reverse l = Ok r ->
  exists keys, mapM key r = Ok keys /\ StronglySorted (key_order reverse) keys.
Proof.
  unfold sorted. destruct (mapM key l) as [keys|] eqn:Hkeys; [|done].
  rewrite rbind_Ok. intros [= <-].
  exists (map fst (sort_by reverse (combine keys l))). split.
  - apply mapM_keyed. rewrite sort_by_Permutation. by apply mapM_Ok_combine.
  - apply StronglySorted_map_fst, sort_by_ordered.
Qed.

(** X5: for each of the six directions the result of [sort_by_direction]
    is ordered by the key of the direction: ascending for "left-right",
    "top-bottom" and "small-large", descending for the three others. *)
Theorem sort_by_direction_ordered (faces ordered : list Face) (direction : string) :
  In direction directions ->
  sort_by_direction faces direction = Ok ordered ->
  exists keys,
    mapM (direction_key direction) ordered = Ok keys
    /\ StronglySorted (key_order (direction_reversed direction)) keys.
Proof.
  intros Hd. rewrite (sort_by_direction_sorted _ _ Hd).
  intros Hsorted. by eapply sorted_ordered.
Qed.

Lemma sort_by_direction_ordered_witness :
  exists keys,
    mapM key_x1 [face_a; face_c; face_b] = Ok keys
    /\ StronglySorted (fun a b => (b <= a)%Q) keys.
Proof.
  apply (sort_by_direction_ordered [face_a; face_b; face_c] _ "right-left").
  - simpl. tauto.
  - reflexivity.
Defined.

Lemma insert_by_filter_key {A : Type} (reverse : bool) (k : Q) (p : Q * A)
  (l : list (Q * A)) :
  List.filter (fun q => Qeq_bool q.1 k) (insert_by reverse p l)
  = List.filter (fun q => Qeq_bool q.1 k) (p :: l).
Proof.
  induction l as [|q l IH]; [done|].
  cbn [insert_by]. destruct (goes_after reverse p q) eqn:E; [|done].
  cbn [List.filter] in *. rewrite IH.
  destruct (Qeq_bool q.1 k) eqn:Eq, (Qeq_bool p.1 k) eqn:Ep; try done.
  apply Qeq_bool_iff in Eq, Ep. exfalso.
  unfold goes_after in E.
  destruct reverse; apply Qltb_lt in E; rewrite Eq, Ep in E;
    by apply Qlt_irrefl in E.
Qed.

Lemma sort_by_filter_key {A : Type} (reverse : bool) (k : Q) (l : list (Q * A)) :
  List.filter (fun q => Qeq_bool q.1 k) (sort_by reverse l)
  = List.filter (fun q => Qeq_bool q.1 k) l.
Proof.
  induction l as [|p l IH]; [done|].
  cbn [sort_by foldr]. rewrite insert_by_filter_key.
  cbn [List.filter]. fold (sort_by reverse l). by rewrite IH.
Qed.

Lemma filter_has_key_keyed {A : Type} (key : A -> result Q) (k : Q)
  (ps : list (Q * A)) :
  Forall (fun p => key p.2 = Ok p.1) ps ->
  List.filter (has_key key k) (map snd ps)
  = map snd (List.filter (fun q => Qeq_bool q.1 k) ps).
Proof.
  induction 1 as [|p ps Hp _ IH]; [done|].
  cbn [map List.filter]. unfold has_key at 1. rewrite Hp, IH.
  by destruct (Qeq_bool p.1 k).
Qed.

Lemma sorted_stable {A : Type} (key : A -> result Q) (reverse : bool)
  (l r : list A) (k : Q) :
  sorted key reverse l = Ok r ->
  List.filter (has_key key k) r = List.filter (has_key key k) l.
Proof.
  unfold sorted. destruct (mapM key l) as [keys|] eqn:Hkeys; [|done].
  rewrite rbind_Ok. intros [= <-].
  pose proof (mapM_Ok_combine _ _ _ Hkeys) as Hkeyed.
  rewrite (filter_has_key_keyed key k (sort_by reverse (combine keys l)))
    by (rewrite sort_by_Permutation; exact Hkeyed).
  rewrite sort_by_filter_key.
  rewrite <- (filter_has_key_keyed key k (combine keys l) Hkeyed).
  by rewrite (combine_snd _ _ (mapM_Ok_length _ _ _ Hkeys)).
Qed.

(** X6: [sort_by_direction] is stable, in both orders: the faces that share
    a key follow each other in the result as they do in the input. *)
Theorem sort_by_direction_stable (faces ordered : list Face) (direction : string)
  (k : Q) :
  sort_by_direction faces direction = Ok ordered ->
  List.filter (has_key (direction_key direction) k) ordered
  = List.filter (has_key (direction_key direction) k) faces.
Proof.
  unfold sort_by_direction, direction_key.
  repeat (destruct (String.eqb direction _);
          [intros Hsorted; by eapply sorted_stable|]).
  by intros [= <-].
Qed.

Lemma sort_by_direction_stable_witness :
  List.filter (has_key key_x1 2)
    [sample_face 1 0 2 1 [] 0 0; sample_face 2 0 3 1 [] 0 1; sample_face 2 0 3 1 [] 0 2]
  = List.filter (has_key key_x1 2)
      [sample_face 2 0 3 1 [] 0 1; sample_face 1 0 2 1 [] 0 0; sample_face 2 0 3 1 [] 0 2].
Proof.
  apply (sort_by_direction_stable _ _ "left-right"). reflexivity.
Defined.

(** ** The filters as selections *)

Lemma filter_sublist_impl {A : Type} (p q : A -> bool) (l : list A) :
  (forall x, p x = true -> q x = true) ->
  sublist (List.filter p l) (List.filter q l).
Proof.
  intros Hpq. induction l as [|x l IH]; simpl; [constructor|].
  destruct (p x) eqn:Hp.
  - rewrite (Hpq x Hp). by constructor.
  - destruct (q x); [by constructor | done].
Qed.

Lemma filter_sublist {A : Type} (p : A -> bool) (l : list A) :
  sublist (List.filter p l) l.
Proof.
  induction l as [|x l IH]; simpl; [constructor|].
  destruct (p x); by constructor.
Qed.

Lemma filter_true {A : Type} (p : A -> bool) (l : list A) :
  Forall (fun x => p x = true) l -> List.filter p l = l.
Proof.
  induction 1 as [|x l Hx _ IH]; simpl; [done|]. by rewrite Hx, IH.
Qed.

Lemma filter_filter_same {A : Type} (p : A -> bool) (l : list A) :
  List.filter p (List.filter p l) = List.filter p l.
Proof.
  apply filter_true. apply List.Forall_forall. intros x Hx.
  by apply filter_In in Hx as [_ Hx].
Qed.

Lemma face_age_keeps_has_age (age_class : string) (face : Face) :
  face_age_keeps age_class face = true -> is_Some (age face).
Proof.
  unfold face_age_keeps. destruct (age face); [by eexists | done].
Qed.

Lemma face_gender_keeps_has_gender (gender_class : string) (face : Face) :
  face_gender_keeps gender_class face = true -> is_Some (gender face).
Proof.
  unfold face_gender_keeps. destruct (gender face); [by eexists | done].
Qed.

Lemma filter_by_age_inv (faces kept : list Face) (age_class : string) :
  filter_by_age faces age_class = Ok kept ->
  kept = List.filter (face_age_keeps age_class) faces.
Proof.
  intros Hr. unfold filter_by_age in Hr.
  apply (for_each_filter_inv _ (face_age_keeps age_class)) in Hr; [done|].
  intros. apply age_step_cases.
Qed.

Lemma filter_by_gender_inv (faces kept : list Face) (gender_class : string) :
  filter_by_gender faces gender_class = Ok kept ->
  kept = List.filter (face_gender_keeps gender_class) faces.
Proof.
  intros Hr. unfold filter_by_gender in Hr.
  apply (for_each_filter_inv _ (face_gender_keeps gender_class)) in Hr; [done|].
  intros. apply gender_step_cases.
Qed.

Lemma Forall_filter_keeps {A : Type} (p : A -> bool) (P : A -> Prop) (l : list A) :
  (forall x, p x = true -> P x) -> Forall P (List.filter p l).
Proof.
  intros Hp. apply List.Forall_forall. intros x Hx.
  apply filter_In in Hx as [_ Hx]. by apply Hp.
Qed.

Lemma Forall_filter_of {A : Type} (p : A -> bool) (P : A -> Prop) (l : list A) :
  Forall P l -> Forall P (List.filter p l).
Proof.
  intros Hl. apply List.Forall_forall. intros x Hx.
  apply filter_In in Hx as [Hx _].
  by apply (proj1 (List.Forall_forall P l) Hl).
Qed.

(** X7: the age bands are nested, not disjoint: on faces that carry an age,
    what [filter_by_age] keeps for "child" it keeps for "teen", and what it
    keeps for "teen" it keeps for "adult", in the same order. *)
Theorem filter_by_age_bands_nested (faces : list Face) :
  Forall (fun f => is_Some (age f)) faces ->
  exists children teens adults,
    filter_by_age faces "child" = Ok children
    /\ filter_by_age faces "teen" = Ok teens
    /\ filter_by_age faces "adult" = Ok adults
    /\ sublist children teens
    /\ sublist teens adults.
Proof.
  intros Hall. eexists _, _, _.
  rewrite !(filter_by_age_spec _ _ Hall).
  split; [done|]. split; [done|]. split; [done|].
  split; apply filter_sublist_impl; intros f; unfold face_age_keeps, age_keeps;
    destruct (age f) as [a|]; try done; simpl;
    rewrite !andb_true_r, !andb_false_r, !orb_false_r; simpl; lia.
Qed.

Lemma filter_by_age_bands_nested_witness :
  exists children teens adults,
    filter_by_age [sample_face 0 0 1 1 [] 0 12; sample_face 0 0 1 1 [] 0 15;
                   sample_face 0 0 1 1 [] 0 40; sample_face 0 0 1 1 [] 0 80] "child"
    = Ok children
    /\ filter_by_age [sample_face 0 0 1 1 [] 0 12; sample_face 0 0 1 1 [] 0 15;
                      sample_face 0 0 1 1 [] 0 40; sample_face 0 0 1 1 [] 0 80] "teen"
       = Ok teens
    /\ filter_by_age [sample_face 0 0 1 1 [] 0 12; sample_face 0 0 1 1 [] 0 15;
                      sample_face 0 0 1 1 [] 0 40; sample_face 0 0 1 1 [] 0 80] "adult"
       = Ok adults
    /\ sublist children teens
    /\ sublist teens adults.
Proof.
  apply filter_by_age_bands_nested. repeat constructor; by eexists.
Defined.

(** X8: on faces that carry an age, "adult" and "senior" split the list:
    every face is kept by exactly one of the two. *)
Theorem filter_by_age_adult_senior_split (faces : list Face) :
  Forall (fun f => is_Some (age f)) faces ->
  exists adults seniors,
    filter_by_age faces "adult" = Ok adults
    /\ filter_by_age faces "senior" = Ok seniors
    /\ (forall face, ~ (In face adults /\ In face seniors))
    /\ Permutation (adults ++ seniors) faces.
Proof.
  intros Hall. eexists _, _.
  rewrite !(filter_by_age_spec _ _ Hall).
  split; [done|]. split; [done|].
  assert (Hexcl : forall f, face_age_keeps "adult" f = true ->
            face_age_keeps "senior" f = true -> False).
  { intros f. unfold face_age_keeps, age_keeps.
    destruct (age f) as [a|]; [|done]. simpl.
    rewrite !andb_true_r, !andb_false_r, !orb_false_r. simpl. lia. }
  split.
  - intros face [[_ Ha]%filter_In [_ Hs]%filter_In]. by eapply Hexcl.
  - rewrite (filter_split_Permutation _ _ _ Hexcl).
    rewrite filter_true; [done|].
    eapply Forall_impl; [|exact Hall].
    intros f [a Ha]. unfold face_age_keeps, age_keeps. rewrite Ha. simpl.
    rewrite !andb_true_r, !andb_false_r, !orb_false_r. simpl. lia.
Qed.

Lemma filter_by_age_adult_senior_split_witness :
  exists adults seniors,
    filter_by_age [sample_face 0 0 1 1 [] 0 59; sample_face 0 0 1 1 [] 0 60;
                   sample_face 0 0 1 1 [] 0 5] "adult" = Ok adults
    /\ filter_by_age [sample_face 0 0 1 1 [] 0 59; sample_face 0 0 1 1 [] 0 60;
                      sample_face 0 0 1 1 [] 0 5] "senior" = Ok seniors
    /\ (forall face, ~ (In face adults /\ In face seniors))
    /\ Permutation (adults ++ seniors)
         [sample_face 0 0 1 1 [] 0 59; sample_face 0 0 1 1 [] 0 60;
          sample_face 0 0 1 1 [] 0 5].
Proof.
  apply filter_by_age_adult_senior_split. repeat constructor; by eexists.
Defined.

(** X9: a result of [filter_by_age] or of [filter_by_gender] is a selection
    of the input: a sublist of it, in the same order, that the same filter
    returns unchanged. *)
Theorem filters_select (faces kept : list Face) (class : string) :
  (filter_by_age faces class = Ok kept ->
     sublist kept faces /\ filter_by_age kept class = Ok kept)
  /\ (filter_by_gender faces class = Ok kept ->
        sublist kept faces /\ filter_by_gender kept class = Ok kept).
Proof.
  split; intros Hr.
  - apply filter_by_age_inv in Hr as ->. split; [apply filter_sublist|].
    rewrite filter_by_age_spec
      by (apply Forall_filter_keeps, face_age_keeps_has_age).
    by rewrite filter_filter_same.
  - apply filter_by_gender_inv in Hr as ->. split; [apply filter_sublist|].
    rewrite filter_by_gender_spec
      by (apply Forall_filter_keeps, face_gender_keeps_has_gender).
    by rewrite filter_filter_same.
Qed.

Lemma filters_select_witness :
  sublist [face_b; face_c] [face_a; face_b; face_c]
  /\ filter_by_gender [face_b; face_c] "female" = Ok [face_b; face_c].
Proof.
  apply (proj2 (filters_select [face_a; face_b; face_c] [face_b; face_c] "female")).
  reflexivity.
Defined.

(** X10: on faces that carry an age and a gender the two filters commute. *)
Theorem filters_commute (faces : list Face) (age_class gender_class : string) :
  Forall (fun f => is_Some (age f)) faces ->
  Forall (fun f => is_Some (gender f)) faces ->
  (kept ← filter_by_age faces age_class; filter_by_gender kept gender_class)
  = (kept ← filter_by_gender faces gender_class; filter_by_age kept age_class).
Proof.
  intros Hage Hgender.
  rewrite (filter_by_age_spec _ _ Hage), (filter_by_gender_spec _ _ Hgender).
  rewrite !rbind_Ok.
  rewrite filter_by_gender_spec by (by apply Forall_filter_of).
  rewrite filter_by_age_spec by (by apply Forall_filter_of).
  f_equal. induction faces as [|f faces IH]; [done|].
  inversion Hage; inversion Hgender; subst. simpl.
  destruct (face_age_keeps age_class f) eqn:Ea,
           (face_gender_keeps gender_class f) eqn:Eg;
    simpl; rewrite ?Ea, ?Eg, IH; done.
Qed.

Lemma filters_commute_witness :
  (kept ← filter_by_age [face_a; face_b] "adult"; filter_by_gender kept "male")
  = (kept ← filter_by_gender [face_a; face_b] "male"; filter_by_age kept "adult").
Proof.
  apply filters_commute; repeat constructor; by eexists.
Defined.

Lemma for_each_raises {A S : Type} (step : A -> S -> result S) (ok : A -> bool)
  (e : exn) (l : list A) (acc : S) :
  (forall x s, ok x = true -> exists s', step x s = Ok s') ->
  (forall x s, ok x = false -> step x s = Raise e) ->
  Exists (fun x => ok x = false) l ->
  for_each l step acc = Raise e.
Proof.
  intros Hok Hfail Hex. revert acc.
  induction l as [|x l IH]; intros acc; [by inversion Hex|].
  simpl. destruct (ok x) eqn:Ex.
  - destruct (Hok x acc Ex) as [s' ->]. rewrite rbind_Ok. apply IH.
    inversion Hex as [? ? Hx | ? ? Hl]; subst; [congruence | done].
  - by rewrite (Hfail x acc Ex).
Qed.

Lemma attribute_present_or_missing {V : Type} (field : Face -> option V)
  (faces : list Face) :
  Forall (fun f => is_Some (field f)) faces
  \/ Exists (fun f => field f = None) faces.
Proof.
  induction faces as [|f l IH]; [left; constructor|].
  destruct (field f) as [v|] eqn:Hf.
  - destruct IH as [IH|IH]; [left | right; by constructor].
    constructor; [by eexists | done].
  - right. by constructor.
Qed.

(** X11: whatever the class, [filter_by_age] raises [AttributeError] exactly
    when a face of the list has no age, also a face that the class would not
    keep, and it raises nothing else; likewise [filter_by_gender] and the
    gender. *)
Theorem filters_raise_iff_attribute_missing (faces : list Face) (class : string) :
  (filter_by_age faces class = Raise AttributeError
   <-> Exists (fun f => age f = None) faces)
  /\ (forall e, filter_by_age faces class = Raise e -> e = AttributeError)
  /\ (filter_by_gender faces class = Raise AttributeError
      <-> Exists (fun f => gender f = None) faces)
  /\ (forall e, filter_by_gender faces class = Raise e -> e = AttributeError).
Proof.
  assert (Hage : Exists (fun f => age f = None) faces ->
            filter_by_age faces class = Raise AttributeError).
  { intros Hex. apply (for_each_raises _ (hasattr age)).
    - intros f s Hf. unfold hasattr in Hf.
      destruct (age f) as [a|] eqn:Ha; [|done].
      eexists. by eapply age_step_Some.
    - intros f s Hf. apply age_step_None. unfold hasattr in Hf.
      by destruct (age f).
    - eapply List.Exists_impl; [|exact Hex].
      intros f Hf. unfold hasattr. by rewrite Hf. }
  assert (Hgender : Exists (fun f => gender f = None) faces ->
            filter_by_gender faces class = Raise AttributeError).
  { intros Hex. apply (for_each_raises _ (hasattr gender)).
    - intros f s Hf. unfold hasattr in Hf.
      destruct (gender f) as [g|] eqn:Hg; [|done].
      eexists. by eapply gender_step_Some.
    - intros f s Hf. apply gender_step_None. unfold hasattr in Hf.
      by destruct (gender f).
    - eapply List.Exists_impl; [|exact Hex].
      intros f Hf. unfold hasattr. by rewrite Hf. }
  split; [|split; [|split]].
  - split; [|exact Hage]. intros Hr.
    destruct (attribute_present_or_missing age faces) as [Hall|Hex]; [|done].
    by rewrite (filter_by_age_spec _ _ Hall) in Hr.
  - intros e Hr. destruct (attribute_present_or_missing age faces) as [Hall|Hex].
    + by rewrite (filter_by_age_spec _ _ Hall) in Hr.
    + rewrite (Hage Hex) in Hr. congruence.
  - split; [|exact Hgender]. intros Hr.
    destruct (attribute_present_or_missing gender faces) as [Hall|Hex]; [|done].
    by rewrite (filter_by_gender_spec _ _ Hall) in Hr.
  - intros e Hr. destruct (attribute_present_or_missing gender faces) as [Hall|Hex].
    + by rewrite (filter_by_gender_spec _ _ Hall) in Hr.
    + rewrite (Hgender Hex) in Hr. congruence.
Qed.

Lemma filters_raise_iff_attribute_missing_witness :
  filter_by_age [face_a; face_without_age] "nobody" = Raise AttributeError.
Proof.
  apply (filters_raise_iff_attribute_missing [face_a; face_without_age] "nobody").
  apply Exists_cons_tl. by apply Exists_cons_hd.
Defined.

(** ** More on the queries *)

Lemma getitem_Ok_In {A : Type} (l : list A) (i : Z) (x : A) :
  getitem l i = Ok x -> In x l.
Proof.
  unfold getitem. destruct (_ || _); [done|].
  destruct (l !! _) as [y|] eqn:Hy; [|done].
  intros [= <-]. apply list_elem_of_In. by eapply list_elem_of_lookup_2.
Qed.

Lemma getitem_Raise {A : Type} (l : list A) (i : Z) (e : exn) :
  getitem l i = Raise e -> e = IndexError.
Proof.
  unfold getitem. destruct (_ || _); [by intros [= <-]|].
  destruct (l !! _); [done | by intros [= <-]].
Qed.

Lemma mapM_raises {A B : Type} (f : A -> result B) (e : exn) (l : list A) :
  Forall (fun x => (exists y, f x = Ok y) \/ f x = Raise e) l ->
  Exists (fun x => f x = Raise e) l ->
  mapM f l = Raise e.
Proof.
  induction 1 as [|x l Hx Hl IH]; intros Hex; [by inversion Hex|].
  simpl. destruct Hx as [[y Hy] | Hx].
  - rewrite Hy, rbind_Ok.
    inversion Hex as [? ? Hx' | ? ? Hl']; subst; [congruence|].
    by rewrite (IH Hl').
  - by rewrite Hx.
Qed.

Lemma direction_key_cases (direction : string) (face : Face) :
  is_Some (bbox face) ->
  (exists k, direction_key direction face = Ok k)
  \/ direction_key direction face = Raise IndexError.
Proof.
  intros [b Hb].
  assert (Hget : forall i, (exists k, getitem b i = Ok k)
                           \/ getitem b i = Raise IndexError).
  { intros i. destruct (getitem b i) as [k|e] eqn:E; [left; by exists k|].
    right. by rewrite (getitem_Raise _ _ _ E). }
  unfold direction_key.
  destruct (_ || _); [unfold key_x1, getattr; rewrite Hb; apply Hget|].
  destruct (_ || _); [unfold key_y1, getattr; rewrite Hb; apply Hget|].
  unfold key_area, getattr. rewrite Hb. cbn -[getitem].
  destruct (Hget 2) as [[x2 ->] | ->]; [|by right]. cbn -[getitem].
  destruct (Hget 0) as [[x1 ->] | ->]; [|by right]. cbn -[getitem].
  destruct (Hget 3) as [[y2 ->] | ->]; [|by right]. cbn -[getitem].
  destruct (Hget 1) as [[y1 ->] | ->]; [|by right]. cbn -[getitem].
  left. by eexists.
Qed.

Lemma direction_key_empty_bbox (direction : string) (face : Face) :
  bbox face = Some [] -> direction_key direction face = Raise IndexError.
Proof.
  intros Hb. unfold direction_key.
  repeat destruct (_ || _); unfold key_x1, key_y1, key_area, getattr;
    by rewrite Hb.
Qed.

Lemma directions_truthy (direction : string) :
  In direction directions -> truthy_str (Some direction) = true.
Proof.
  unfold directions. simpl.
  intros [<- | [<- | [<- | [<- | [<- | [<- | []]]]]]]; reflexivity.
Qed.

Lemma sorted_or_same_In (faces ordered : list Face) (direction : string) (f : Face) :
  sort_by_direction faces direction = Ok ordered -> In f ordered -> In f faces.
Proof.
  unfold sort_by_direction.
  repeat (destruct (String.eqb direction _);
          [intros Hs Hf; apply sorted_Permutation in Hs;
           by eapply Permutation_in|]).
  by intros [= <-].
Qed.

Lemma refine_result_In (g : Globals) (faces kept : list Face) :
  refine_result g faces = Ok kept -> forall f, In f kept -> In f faces.
Proof.
  unfold refine_result.
  destruct (if truthy_str (face_analyser_direction g) then _ else _)
    as [f1|] eqn:E1; [|done]. rewrite rbind_Ok.
  destruct (if truthy_str (face_analyser_age g) then _ else _)
    as [f2|] eqn:E2; [|done]. rewrite rbind_Ok.
  destruct (if truthy_str (face_analyser_gender g) then _ else _)
    as [f3|] eqn:E3; [|done]. rewrite rbind_Ok.
  intros [= <-] f Hf.
  assert (H3 : In f f2).
  { destruct (truthy_str (face_analyser_gender g)); [|congruence].
    apply filter_by_gender_inv in E3. subst f3.
    by apply filter_In in Hf as [Hf _]. }
  assert (H2 : In f f1).
  { destruct (truthy_str (face_analyser_age g)); [|congruence].
    apply filter_by_age_inv in E2. subst f2.
    by apply filter_In in H3 as [H3 _]. }
  destruct (truthy_str (face_analyser_direction g)); [|congruence].
  apply sorted_or_same_In with (direction := default "" (face_analyser_direction g))
                               (ordered := f1); done.
Qed.

Section AnalyserMore.

Variable resolve_relative_path : string -> string.
Variable FaceDetectorYN_create :
  option string -> option string -> nat * nat -> result DetectorObject.
Variable InferenceSession : option string -> list string -> result SessionObject.
Variable detect :
  DetectorObject -> Q -> nat -> nat * nat -> Frame -> result (option (list (list Q))).
Variable create_embedding : Frame -> Kps -> result Embedding.
Variable linalg_norm : Embedding -> Q.
Variable get_faces_cache : Frame -> Py (option (list Face)).
Variable set_faces_cache : Frame -> list Face -> Py unit.

Local Abbreviation get_face_analyser' :=
  (get_face_analyser resolve_relative_path DetectorObject SessionObject
     FaceDetectorYN_create InferenceSession).
Local Abbreviation extract_faces' :=
  (extract_faces resolve_relative_path FaceDetectorYN_create InferenceSession
     detect create_embedding linalg_norm).
Local Abbreviation extract_faces_result' :=
  (extract_faces_result detect create_embedding linalg_norm).
Local Abbreviation cached_faces' :=
  (cached_faces resolve_relative_path FaceDetectorYN_create InferenceSession
     detect create_embedding linalg_norm get_faces_cache set_faces_cache).
Local Abbreviation get_many_faces' :=
  (get_many_faces resolve_relative_path FaceDetectorYN_create InferenceSession
     detect create_embedding linalg_norm get_faces_cache set_faces_cache).
Local Abbreviation get_one_face' :=
  (get_one_face resolve_relative_path FaceDetectorYN_create InferenceSession
     detect create_embedding linalg_norm get_faces_cache set_faces_cache).
Local Abbreviation find_similar_faces' :=
  (find_similar_faces resolve_relative_path FaceDetectorYN_create InferenceSession
     detect create_embedding linalg_norm get_faces_cache set_faces_cache).

(** X12: an [IndexError] is not swallowed.  With one of the six directions
    selected, a face whose [bbox] is an empty array among faces that all
    carry a [bbox] makes [get_many_faces] raise [IndexError]. *)
Theorem get_many_faces_index_error_escapes (frame : Frame) (w w1 : World)
  (faces : list Face) (direction : string) :
  cached_faces' frame w = (Ok faces, w1) ->
  face_analyser_direction (globals w1) = Some direction ->
  In direction directions ->
  Forall (fun f => is_Some (bbox f)) faces ->
  Exists (fun f => bbox f = Some []) faces ->
  get_many_faces' frame w = (Raise IndexError, w1).
Proof.
  intros Hcached Hdir Hin Hall Hex.
  rewrite get_many_faces_run, Hcached.
  unfold refine_result. rewrite Hdir, (directions_truthy _ Hin). cbn [default].
  rewrite (sort_by_direction_sorted _ _ Hin). unfold sorted.
  rewrite (mapM_raises _ IndexError); [done | |].
  - eapply Forall_impl; [|exact Hall]. intros f. apply direction_key_cases.
  - eapply List.Exists_impl; [|exact Hex].
    intros f. apply direction_key_empty_bbox.
Qed.

Lemma get_one_face_run (frame : Frame) (position : Z) (w w' : World)
  (many_faces : list Face) :
  get_many_faces' frame w = (Ok many_faces, w') ->
  get_one_face' frame position w
  = match many_faces with
    | [] => (Ok None, w')
    | _ :: _ =>
        match getitem many_faces position with
        | Ok face => (Ok (Some face), w')
        | Raise _ => (Ok (list.last many_faces), w')
        end
    end.
Proof.
  intros Hmany. unfold get_one_face. rewrite (bind_run_Ok _ _ _ _ _ Hmany).
  destruct many_faces as [|f l]; [done|]. cbn [truthy].
  unfold try_except_index. rewrite bind_run. unfold lift.
  destruct (getitem (f :: l) position) as [face|e] eqn:Hget; [done|].
  rewrite (getitem_Raise _ _ _ Hget).
  destruct (getitem_last (f :: l)) as (x & -> & Hlast); [done|].
  rewrite bind_run. by rewrite Hlast.
Qed.

(** X13: whatever the position, [get_one_face] raises nothing when
    [get_many_faces] returns: it returns one of the faces of that list, and
    nothing only when the list is empty. *)
Theorem get_one_face_member (frame : Frame) (position : Z) (w w' : World)
  (many_faces : list Face) :
  get_many_faces' frame w = (Ok many_faces, w') ->
  exists found,
    get_one_face' frame position w = (Ok found, w')
    /\ (found = None <-> many_faces = [])
    /\ (forall face, found = Some face -> In face many_faces).
Proof.
  intros Hmany. rewrite (get_one_face_run _ _ _ _ _ Hmany).
  destruct many_faces as [|f l]; [by exists None|].
  destruct (getitem (f :: l) position) as [face|e] eqn:Hget.
  - exists (Some face). split; [done|]. split; [done|].
    intros face' [= <-]. by eapply getitem_Ok_In.
  - destruct (getitem_last (f :: l)) as (x & Hx & Hlast); [done|].
    exists (Some x). rewrite Hx. split; [done|]. split; [done|].
    intros face' [= <-]. by eapply getitem_Ok_In.
Qed.

(** X14: when the reference has no normed embedding, [find_similar_faces]
    returns the empty list, whatever the faces. *)
Theorem find_similar_faces_without_reference_embedding (frame : Frame)
  (reference_face : Face) (face_distance : Q) (w w' : World)
  (many_faces : list Face) :
  get_many_faces' frame w = (Ok many_faces, w') ->
  normed_embedding reference_face = None ->
  find_similar_faces' frame reference_face face_distance w = (Ok [], w').
Proof.
  intros Hmany Href.
  rewrite (find_similar_faces_run _ _ _ _ _ _ _ _ _ _ _ _ _ _ Hmany).
  - f_equal. f_equal. apply filter_false. intros f. unfold is_similar.
    rewrite Href. by destruct (normed_embedding f).
  - apply List.Forall_forall. intros f _ a b _ Hb. congruence.
Qed.

(** X15: the [ValueError] of [numpy.dot] is not caught: when the reference
    has a normed embedding and some face has one of another length,
    [find_similar_faces] raises [ValueError]. *)
Theorem find_similar_faces_length_mismatch (frame : Frame)
  (reference_face : Face) (face_distance : Q) (w w' : World)
  (many_faces : list Face) (b : Embedding) :
  get_many_faces' frame w = (Ok many_faces, w') ->
  normed_embedding reference_face = Some b ->
  Exists (fun f => exists a, normed_embedding f = Some a /\ length a <> length b)
         many_faces ->
  find_similar_faces' frame reference_face face_distance w
  = (Raise ValueError, w').
Proof.
  intros Hmany Href Hex.
  unfold find_similar_faces. rewrite (bind_run_Ok _ _ _ _ _ Hmany).
  destruct many_faces as [|f l]; [by inversion Hex|]. cbn [truthy].
  unfold lift. f_equal.
  apply (for_each_raises _
           (fun f => match normed_embedding f with
                     | Some a => Nat.eqb (length a) (length b)
                     | None => true
                     end)).
  - intros x s Hx. unfold similar_step, hasattr, getattr, numpy_dot.
    rewrite Href. destruct (normed_embedding x) as [a|]; [|by eexists].
    simpl. rewrite Hx, rbind_Ok. destruct (Qltb _ _); by eexists.
  - intros x s Hx. unfold similar_step, hasattr, getattr, numpy_dot.
    rewrite Href. destruct (normed_embedding x) as [a|]; [|done].
    simpl. by rewrite Hx.
  - eapply List.Exists_impl; [|exact Hex].
    intros x (a & -> & Hlen). by apply Nat.eqb_neq.
Qed.

(** X16: a face of the list whose normed embedding has unit length is found
    when it is itself the reference, for every positive threshold. *)
Theorem find_similar_faces_finds_reference (frame : Frame) (face : Face)
  (face_distance : Q) (w w' : World) (many_faces : list Face) (a : Embedding) :
  get_many_faces' frame w = (Ok many_faces, w') ->
  Forall (same_length_as face) many_faces ->
  In face many_faces ->
  normed_embedding face = Some a ->
  (dot_sum a a == 1)%Q ->
  (0 < face_distance)%Q ->
  exists similar,
    find_similar_faces' frame face face_distance w = (Ok similar, w')
    /\ In face similar.
Proof.
  intros Hmany Hlen Hin Ha Hunit Hpos.
  eexists. split; [by apply find_similar_faces_run|].
  apply filter_In. split; [done|].
  apply is_similar_iff. exists a, a. repeat split; try done.
  by rewrite Hunit.
Qed.

End AnalyserMore.

(** ** More on the extraction and on the cache *)

Lemma filter_false_on {A : Type} (p : A -> bool) (l : list A) :
  Forall (fun x => p x = false) l -> List.filter p l = [].
Proof.
  induction 1 as [|x l Hx _ IH]; simpl; [done|]. by rewrite Hx.
Qed.

Section ExtractionMore.

Variable resolve_relative_path : string -> string.
Variable FaceDetectorYN_create :
  option string -> option string -> nat * nat -> result DetectorObject.
Variable InferenceSession : option string -> list string -> result SessionObject.
Variable detect :
  DetectorObject -> Q -> nat -> nat * nat -> Frame -> result (option (list (list Q))).
Variable create_embedding : Frame -> Kps -> result Embedding.
Variable linalg_norm : Embedding -> Q.

Local Abbreviation get_face_analyser' :=
  (get_face_analyser resolve_relative_path DetectorObject SessionObject
     FaceDetectorYN_create InferenceSession).
Local Abbreviation extract_faces' :=
  (extract_faces resolve_relative_path FaceDetectorYN_create InferenceSession
     detect create_embedding linalg_norm).
Local Abbreviation extract_faces_result' :=
  (extract_faces_result detect create_embedding linalg_norm).
Local Abbreviation extract_step' := (extract_step create_embedding linalg_norm).
Local Abbreviation cached_get_many_faces :=
  (get_many_faces resolve_relative_path FaceDetectorYN_create InferenceSession
     detect create_embedding linalg_norm
     face_cache.get_faces_cache face_cache.set_faces_cache).

Local Abbreviation built_from' := (built_from create_embedding linalg_norm).

Lemma extract_step_built (frame : Frame) (detection : list Q)
  (faces faces' : list Face) :
  extract_step' frame detection faces = Ok faces' ->
  exists face, faces' = (faces ++ [face])%list /\ built_from' frame detection face.
Proof.
  unfold extract_step.
  destruct (reshape_5_2 _) as [k|] eqn:Hk; [|done]. rewrite rbind_Ok.
  destruct (getitem detection 14) as [s|] eqn:Hs; [|done]. rewrite rbind_Ok.
  destruct (create_embedding frame k) as [e|] eqn:He; [|done]. rewrite rbind_Ok.
  intros [= <-]. eexists. split; [reflexivity|].
  unfold built_from. cbn [bbox kps score embedding normed_embedding gender age].
  split; [done|]. split; [by eauto 10|].
  assert (Hlookup : detection !! 14%nat = Some s).
  { unfold getitem in Hs. cbn [Z.ltb Z.compare] in Hs.
    destruct (_ || _); [done|].
    change (Z.to_nat 14) with 14%nat in Hs.
    by destruct (detection !! 14%nat) as [s'|]; [injection Hs as <-|]. }
  rewrite Hlookup. by eauto.
Qed.

Lemma extract_loop_built (frame : Frame) (detections : list (list Q))
  (acc faces : list Face) :
  for_each detections (extract_step' frame) acc = Ok faces ->
  exists built,
    faces = (acc ++ built)%list /\ Forall2 (built_from' frame) detections built.
Proof.
  revert acc. induction detections as [|d ds IH]; intros acc; simpl.
  - intros [= <-]. exists []. by rewrite app_nil_r.
  - destruct (extract_step' frame d acc) as [acc'|] eqn:Hstep; [|done].
    rewrite rbind_Ok. intros Hrest.
    apply extract_step_built in Hstep as (face & -> & Hface).
    apply IH in Hrest as (built & -> & Hbuilt).
    exists (face :: built). split; [by rewrite <- app_assoc|].
    by constructor.
Qed.

(** When [extract_faces] returns, the analyser is built, the detector has
    returned an array, and the faces are those of the loop over the array, or
    none when the array has no non-zero entry. *)
Lemma extract_faces_Ok (frame : Frame) (w w' : World) (faces : list Face) :
  extract_faces' frame w = (Ok faces, w') ->
  exists analyser detections,
    get_face_analyser' (runtime w) = (Ok analyser, runtime w')
    /\ FACE_ANALYSER _ _ (runtime w') = Some analyser
    /\ w' = detector_called frame (with_runtime (runtime w') w)
    /\ detect (face_detector _ _ analyser) (1 # 2)%Q 100%nat
         (frame_width frame, frame_height frame) frame = Ok (Some detections)
    /\ (if ndarray_any detections
        then Forall2 (built_from' frame) detections faces
        else faces = []).
Proof.
  rewrite extract_faces_run.
  destruct (get_face_analyser' (runtime w)) as [[analyser|e] s] eqn:Hget; [|done].
  unfold extract_faces_result.
  destruct (detect _ _ _ _ frame) as [[detections|]|] eqn:Hdetect; [|done|done].
  rewrite rbind_Ok. cbn [detections_any iter]. rewrite !rbind_Ok.
  intros [= Hloop <-]. exists analyser, detections.
  cbn [runtime detector_called with_runtime].
  apply get_face_analyser_built in Hget as Hbuilt. destruct Hbuilt as (Hset & _).
  split; [done|]. split; [done|]. split; [done|]. split; [done|].
  destruct (ndarray_any detections).
  - by apply extract_loop_built in Hloop as (built & -> & Hbuilt).
  - by injection Hloop as <-.
Qed.

(** X17: when [extract_faces] returns, the detector, the one of the
    analyser, has returned an array; when the array has a non-zero entry
    the result has one face per detection, in the order of the detections:
    the box is the first four values, the score the fifteenth, the landmarks
    the ten values between, reshaped, the embedding that of the landmarks,
    and the gender and the age are 0; otherwise the result is empty. *)
Theorem extract_faces_one_face_per_detection (frame : Frame) (w w' : World)
  (faces : list Face) :
  extract_faces' frame w = (Ok faces, w') ->
  exists analyser detections,
    FACE_ANALYSER _ _ (runtime w') = Some analyser
    /\ detect (face_detector _ _ analyser) (1 # 2)%Q 100%nat
         (frame_width frame, frame_height frame) frame = Ok (Some detections)
    /\ (if ndarray_any detections
        then Forall2 (built_from' frame) detections faces
        else faces = []).
Proof.
  intros Hextract.
  apply extract_faces_Ok in Hextract
    as (analyser & detections & _ & Hset & _ & Hdetect & Hfaces).
  by exists analyser, detections.
Qed.

Lemma extract_faces_placeholder_values (frame : Frame) (w w' : World)
  (faces : list Face) :
  extract_faces' frame w = (Ok faces, w') ->
  Forall (fun f => gender f = Some 0 /\ age f = Some 0) faces.
Proof.
  intros Hextract.
  apply extract_faces_Ok in Hextract
    as (analyser & detections & _ & _ & _ & _ & Hfaces).
  destruct (ndarray_any detections); [|subst; constructor].
  induction Hfaces as [|d f ds fs Hf _ IH]; constructor; [|done].
  unfold built_from in Hf. tauto.
Qed.

(** X18: the faces of [extract_faces] carry the gender 0 and the age 0, so
    [filter_by_gender] keeps all of them for "female" and none for "male",
    and [filter_by_age] keeps all of them for "child", "teen" and "adult"
    and none for "senior". *)
Theorem extracted_faces_under_the_filters (frame : Frame) (w w' : World)
  (faces : list Face) :
  extract_faces' frame w = (Ok faces, w') ->
  filter_by_gender faces "female" = Ok faces
  /\ filter_by_gender faces "male" = Ok []
  /\ filter_by_age faces "child" = Ok faces
  /\ filter_by_age faces "teen" = Ok faces
  /\ filter_by_age faces "adult" = Ok faces
  /\ filter_by_age faces "senior" = Ok [].
Proof.
  intros Hextract.
  pose proof (extract_faces_placeholder_values _ _ _ _ Hextract) as Hzero.
  assert (Hage : Forall (fun f => is_Some (age f)) faces).
  { eapply Forall_impl; [|exact Hzero]. intros f [_ ->]. by eexists. }
  assert (Hgender : Forall (fun f => is_Some (gender f)) faces).
  { eapply Forall_impl; [|exact Hzero]. intros f [-> _]. by eexists. }
  rewrite !(filter_by_gender_spec _ _ Hgender), !(filter_by_age_spec _ _ Hage).
  assert (Hkeep : forall p : Face -> bool,
            (forall f, gender f = Some 0 -> age f = Some 0 -> p f = true) ->
            List.filter p faces = faces).
  { intros p Hp. apply filter_true. eapply Forall_impl; [|exact Hzero].
    intros f [Hg Ha]. by apply Hp. }
  assert (Hdrop : forall p : Face -> bool,
            (forall f, gender f = Some 0 -> age f = Some 0 -> p f = false) ->
            List.filter p faces = []).
  { intros p Hp. apply filter_false_on. eapply Forall_impl; [|exact Hzero].
    intros f [Hg Ha]. by apply Hp. }
  rewrite (Hkeep (face_gender_keeps "female")), (Hdrop (face_gender_keeps "male")),
    (Hkeep (face_age_keeps "child")), (Hkeep (face_age_keeps "teen")),
    (Hkeep (face_age_keeps "adult")), (Hdrop (face_age_keeps "senior")); try done;
    intros f Hg Ha; unfold face_gender_keeps, face_age_keeps;
    by rewrite ?Hg, ?Ha.
Qed.

(** X19: [get_many_faces] leaves the configuration and the cache entries of
    the other frames as they are, calls the detector at most once, and on a
    non-empty cache entry changes nothing at all. *)
Theorem get_many_faces_frame_effect (frame : Frame) (w : World) :
  globals (cached_get_many_faces frame w).2 = globals w
  /\ (forall other, other <> frame ->
        FACES_CACHE (cached_get_many_faces frame w).2 !! other
        = FACES_CACHE w !! other)
  /\ (detector_calls (cached_get_many_faces frame w).2 = detector_calls w
      \/ detector_calls (cached_get_many_faces frame w).2
         = frame :: detector_calls w)
  /\ (forall face faces,
        FACES_CACHE w !! frame = Some (face :: faces) ->
        (cached_get_many_faces frame w).2 = w).
Proof.
  rewrite cached_get_many_faces_run.
  destruct (truthy_opt (FACES_CACHE w !! frame)) eqn:Hhit.
  - cbn [snd]. repeat split; auto.
  - destruct (get_face_analyser' (runtime w)) as [[analyser|e] s];
      [destruct (extract_faces_result' _ frame)|];
      cbn [snd stored detector_called with_runtime globals FACES_CACHE detector_calls].
    + repeat split; auto.
      * intros other Hother. by rewrite lookup_insert_ne.
      * intros face faces Hsome. by rewrite Hsome in Hhit.
    + repeat split; auto.
      intros face faces Hsome. by rewrite Hsome in Hhit.
    + repeat split; auto.
      intros face faces Hsome. by rewrite Hsome in Hhit.
Qed.

(** X20: every face that [get_many_faces] returns is a face of the cache
    entry of the frame, as the call leaves it: the sort and the filters
    select among the cached or extracted faces and add none. *)
Theorem get_many_faces_returns_cached_faces (frame : Frame) (w : World)
  (returned : list Face) (face : Face) :
  (cached_get_many_faces frame w).1 = Ok returned ->
  In face returned ->
  exists faces,
    FACES_CACHE (cached_get_many_faces frame w).2 !! frame = Some faces
    /\ In face faces.
Proof.
  rewrite cached_get_many_faces_run.
  assert (Hcaught : forall g faces,
            caught (refine_result g faces) = Ok returned ->
            In face returned -> In face faces).
  { intros g faces Hc Hin.
    destruct (refine_result g faces) as [kept|e] eqn:Hr.
    - injection Hc as ->. by eapply refine_result_In.
    - destruct e; simpl in Hc; try done; by injection Hc as <-. }
  assert (Hmiss : forall entry,
            FACES_CACHE w !! frame = entry ->
            (match get_face_analyser' (runtime w) with
             | (Ok analyser, s) =>
                 match extract_faces_result' (face_detector _ _ analyser) frame with
                 | Ok faces =>
                     (caught (refine_result (globals w) faces),
                      stored frame faces (detector_called frame (with_runtime s w)))
                 | Raise e =>
                     (caught (Raise e), detector_called frame (with_runtime s w))
                 end
             | (Raise e, s) => (caught (Raise e), with_runtime s w)
             end).1 = Ok returned ->
            In face returned ->
            exists faces,
              FACES_CACHE
                (match get_face_analyser' (runtime w) with
                 | (Ok analyser, s) =>
                     match extract_faces_result' (face_detector _ _ analyser) frame with
                     | Ok faces =>
                         (caught (refine_result (globals w) faces),
                          stored frame faces (detector_called frame (with_runtime s w)))
                     | Raise e =>
                         (caught (Raise e), detector_called frame (with_runtime s w))
                     end
                 | (Raise e, s) => (caught (Raise e), with_runtime s w)
                 end).2 !! frame = Some faces
              /\ In face faces).
  { intros entry _.
    destruct (get_face_analyser' (runtime w)) as [[analyser|e] s];
      [destruct (extract_faces_result' _ frame) as [faces|e]|];
      cbn [fst snd stored FACES_CACHE].
    - intros Hc Hin. exists faces. rewrite lookup_insert_eq.
      split; [done|]. by eapply Hcaught.
    - intros Hc Hin. destruct e; simpl in Hc; try done; by injection Hc as <-.
    - intros Hc Hin. destruct e; simpl in Hc; try done; by injection Hc as <-. }
  destruct (FACES_CACHE w !! frame) as [[|f l]|] eqn:Hentry; cbn [truthy_opt truthy].
  - by apply (Hmiss (Some [])).
  - cbn [fst snd default]. intros Hc Hin. exists (f :: l).
    split; [done|]. by eapply Hcaught.
  - by apply (Hmiss None).
Qed.

(** *** The normed embedding *)

Lemma dot_sum_scale (c : Q) (e : list Q) :
  ~ (c == 0)%Q ->
  (dot_sum (map (fun x => x / c) e) (map (fun x => x / c) e)
   == dot_sum e e / (c * c))%Q.
Proof.
  intros Hc. induction e as [|x e IH]; simpl.
  - field. exact Hc.
  - rewrite IH. field. exact Hc.
Qed.

(** Dividing by a value that is the L2 norm within the tolerance leaves a
    vector whose L2 norm is 1 within the tolerance. *)
Lemma norm_within_normed (t c : Q) (e : Embedding) :
  norm_within t c e -> norm_within t 1 (map (fun x => x / c)%Q e).
Proof.
  intros (Ht & Hc & Hlow & Hhigh).
  assert (Hnz : ~ (c == 0)%Q) by (intros H0; rewrite H0 in Hc; by apply Qlt_irrefl in Hc).
  assert (Hcc : (0 < c * c)%Q) by (apply Qmult_lt_0_compat; exact Hc).
  split; [exact Ht|]. split; [reflexivity|].
  rewrite (dot_sum_scale c e Hnz). split.
  - apply Qle_shift_div_l; [exact Hcc|].
    eapply Qle_trans; [|exact Hlow]. apply Qle_lteq. right. ring.
  - apply Qle_shift_div_r; [exact Hcc|].
    eapply Qle_trans; [exact Hhigh|]. apply Qle_lteq. right. ring.
Qed.

(** C9, as the code has it: every face that [extract_faces] returns carries
    the embedding and, as normed embedding, the embedding divided entry by
    entry by [numpy.linalg.norm] of it.  Whenever the value of the norm is
    positive and is the L2 norm of the embedding within the relative
    tolerance [t], the L2 norm of the quotient, taken exactly, is 1 within
    [t]. *)
Theorem normed_embedding_within_tolerance (frame : Frame) (w w' : World)
  (faces : list Face) (t : Q) :
  extract_faces' frame w = (Ok faces, w') ->
  Forall (fun face =>
            exists e n,
              embedding face = Some e
              /\ normed_embedding face = Some n
              /\ n = map (fun x => x / linalg_norm e)%Q e
              /\ (norm_within t (linalg_norm e) e -> norm_within t 1 n))
         faces.
Proof.
  intros Hextract.
  apply extract_faces_Ok in Hextract
    as (analyser & detections & _ & _ & _ & _ & Hfaces).
  destruct (ndarray_any detections); [|subst; constructor].
  induction Hfaces as [|d f ds fs Hf _ IH]; constructor; [|done].
  destruct Hf as (_ & (k & _ & _ & e & _ & He & Hn) & _).
  exists e, (map (fun x => x / linalg_norm e)%Q e).
  split; [done|]. split; [done|]. split; [done|].
  apply norm_within_normed.
Qed.

End ExtractionMore.

Lemma get_many_faces_index_error_escapes_witness :
  get_many_faces resolve_here detector_ok session_ok detect_nothing embed_axis norm_axis
    face_cache.get_faces_cache face_cache.set_faces_cache frame0 world_boxless
  = (Raise IndexError, world_boxless).
Proof.
  apply (get_many_faces_index_error_escapes resolve_here detector_ok session_ok
      detect_nothing embed_axis norm_axis
           face_cache.get_faces_cache face_cache.set_faces_cache
           frame0 world_boxless world_boxless [face_a; face_without_box]
           "left-right").
  - vm_compute; reflexivity.
  - reflexivity.
  - simpl. tauto.
  - repeat constructor; by eexists.
  - apply Exists_cons_tl. by apply Exists_cons_hd.
Defined.

Lemma get_one_face_member_witness :
  exists found,
    get_one_face resolve_here detector_ok session_ok detect_nothing embed_axis norm_axis
      face_cache.get_faces_cache face_cache.set_faces_cache
      frame0 (-9) world_cached = (Ok found, world_cached)
    /\ (found = None <-> [face_a; face_b; face_c] = [])
    /\ (forall face, found = Some face -> In face [face_a; face_b; face_c]).
Proof.
  apply (get_one_face_member resolve_here detector_ok session_ok
      detect_nothing embed_axis norm_axis
           face_cache.get_faces_cache face_cache.set_faces_cache
           frame0 (-9) world_cached world_cached [face_a; face_b; face_c]).
  vm_compute; reflexivity.
Defined.

Lemma find_similar_faces_without_reference_embedding_witness :
  find_similar_faces resolve_here detector_ok session_ok
      detect_nothing embed_axis norm_axis
    face_cache.get_faces_cache face_cache.set_faces_cache
    frame0 face_c 2 world_cached
  = (Ok [], world_cached).
Proof.
  apply (find_similar_faces_without_reference_embedding
           resolve_here detector_ok session_ok detect_nothing embed_axis norm_axis
           face_cache.get_faces_cache face_cache.set_faces_cache
           frame0 face_c 2 world_cached world_cached [face_a; face_b; face_c]).
  - vm_compute; reflexivity.
  - reflexivity.
Defined.

Lemma find_similar_faces_length_mismatch_witness :
  find_similar_faces resolve_here detector_ok session_ok
      detect_nothing embed_axis norm_axis
    face_cache.get_faces_cache face_cache.set_faces_cache
    frame0 (sample_face 0 0 1 1 [1; 0; 0]%Q 0 0) 2 world_cached
  = (Raise ValueError, world_cached).
Proof.
  apply (find_similar_faces_length_mismatch
           resolve_here detector_ok session_ok detect_nothing embed_axis norm_axis
           face_cache.get_faces_cache face_cache.set_faces_cache
           frame0 (sample_face 0 0 1 1 [1; 0; 0]%Q 0 0) 2
           world_cached world_cached [face_a; face_b; face_c] [1; 0; 0]%Q).
  - vm_compute; reflexivity.
  - reflexivity.
  - apply Exists_cons_hd. exists [1; 0]%Q. split; [reflexivity | discriminate].
Defined.

Lemma find_similar_faces_finds_reference_witness :
  exists similar,
    find_similar_faces resolve_here detector_ok session_ok
        detect_nothing embed_axis norm_axis
      face_cache.get_faces_cache face_cache.set_faces_cache
      frame0 face_b (1 # 100) world_cached = (Ok similar, world_cached)
    /\ In face_b similar.
Proof.
  apply (find_similar_faces_finds_reference
           resolve_here detector_ok session_ok detect_nothing embed_axis norm_axis
           face_cache.get_faces_cache face_cache.set_faces_cache
           frame0 face_b (1 # 100) world_cached world_cached
           [face_a; face_b; face_c] [0; 1]%Q).
  - vm_compute; reflexivity.
  - repeat constructor; intros a b; vm_compute; intros [= <-] [= <-]; reflexivity.
  - simpl. tauto.
  - reflexivity.
  - reflexivity.
  - reflexivity.
Defined.

Lemma extract_faces_one_face_per_detection_witness :
  exists faces,
    extract_faces resolve_here detector_ok session_ok detect_one embed_axis norm_axis
      frame0 world0
    = (Ok faces, detector_called frame0 (with_runtime runtime_built world0))
    /\ Forall2 (built_from embed_axis norm_axis frame0)
         [[0; 0; 10; 10; 2; 3; 7; 3; 5; 5; 3; 7; 7; 7; 9 # 10]%Q] faces.
Proof.
  eexists. split; [vm_compute; reflexivity|].
  destruct (extract_faces_one_face_per_detection resolve_here detector_ok session_ok
              detect_one embed_axis norm_axis frame0 world0 _ _ eq_refl)
    as (analyser & detections & _ & Hdetect & Hfaces).
  injection Hdetect as <-. exact Hfaces.
Defined.

Lemma extracted_faces_under_the_filters_witness :
  exists faces,
    extract_faces resolve_here detector_ok session_ok detect_one embed_axis norm_axis
      frame0 world0
    = (Ok faces, detector_called frame0 (with_runtime runtime_built world0))
    /\ length faces = 1%nat
    /\ filter_by_gender faces "female" = Ok faces
    /\ filter_by_gender faces "male" = Ok []
    /\ filter_by_age faces "child" = Ok faces
    /\ filter_by_age faces "teen" = Ok faces
    /\ filter_by_age faces "adult" = Ok faces
    /\ filter_by_age faces "senior" = Ok [].
Proof.
  eexists. split; [vm_compute; reflexivity|]. split; [reflexivity|].
  eapply (extracted_faces_under_the_filters resolve_here detector_ok session_ok
            detect_one embed_axis norm_axis frame0 world0
            (detector_called frame0 (with_runtime runtime_built world0)));
    vm_compute; reflexivity.
Defined.

(** C9, as the spec has it, fails in binary32.  The embedding whose entries
    are 2^-80 is not zero; its squares underflow to 0, so that its norm is 0
    and line 73 gives infinite entries.  The squares of the embedding whose
    entries are 2^70 overflow, so that its norm is infinite and line 73
    gives the entries 0.  On (3, 4) the norm is 5 and the norm of the
    quotient is 1. *)
Lemma normed_embedding_underflow :
  float32.nonzero tiny_embedding = true
  /\ float32.linalg_norm tiny_embedding = SpecFloat.S754_zero false
  /\ float32.normed_embedding tiny_embedding
     = repeat (SpecFloat.S754_infinity false) 512
  /\ float32.unit_within_tolerance
       (float32.linalg_norm (float32.normed_embedding tiny_embedding)) = false
  /\ float32.nonzero huge_embedding = true
  /\ float32.linalg_norm huge_embedding = SpecFloat.S754_infinity false
  /\ float32.normed_embedding huge_embedding
     = repeat (SpecFloat.S754_zero false) 512
  /\ float32.unit_within_tolerance
       (float32.linalg_norm (float32.normed_embedding huge_embedding)) = false
  /\ float32.linalg_norm plain_embedding = SpecFloat.S754_finite false 10485760 (-21)
  /\ float32.unit_within_tolerance
       (float32.linalg_norm (float32.normed_embedding plain_embedding)) = true.
Proof. repeat split; vm_compute; reflexivity. Qed.

Lemma normed_embedding_within_tolerance_witness :
  exists face n,
    extract_faces resolve_here detector_ok session_ok
      detect_one embed_diagonal norm_newton frame0 world0
    = (Ok [face], detector_called frame0 (with_runtime runtime_built world0))
    /\ embedding face = Some [1; 1]%Q
    /\ normed_embedding face = Some n
    /\ norm_within (1 # 100000) 1 n.
Proof.
  pose proof (normed_embedding_within_tolerance resolve_here detector_ok session_ok
                detect_one embed_diagonal norm_newton frame0 world0 _ _ (1 # 100000)
                eq_refl) as Hall.
  apply Forall_inv in Hall. destruct Hall as (e & n & He & Hn & _ & Hunit).
  injection He as <-.
  eexists _, n. split; [vm_compute; reflexivity|].
  split; [reflexivity|]. split; [exact Hn|].
  apply Hunit. repeat split; vm_compute; congruence.
Defined.

Lemma get_many_faces_frame_effect_witness :
  FACES_CACHE
    (get_many_faces resolve_here detector_ok session_ok detect_one embed_axis norm_axis
       face_cache.get_faces_cache face_cache.set_faces_cache frame0 world_other).2
  !! frame1 = Some [face_a].
Proof.
  destruct (get_many_faces_frame_effect resolve_here detector_ok session_ok
      detect_one embed_axis norm_axis
              frame0 world_other) as (_ & Hother & _).
  rewrite Hother; [reflexivity | discriminate].
Defined.

Lemma get_many_faces_returns_cached_faces_witness :
  exists faces,
    FACES_CACHE
      (get_many_faces resolve_here detector_ok session_ok
          detect_nothing embed_axis norm_axis
         face_cache.get_faces_cache face_cache.set_faces_cache
         frame0 world_cached).2 !! frame0 = Some faces
    /\ In face_b faces.
Proof.
  apply (get_many_faces_returns_cached_faces resolve_here detector_ok session_ok
      detect_nothing embed_axis norm_axis
           frame0 world_cached [face_a; face_b; face_c]).
  - vm_compute; reflexivity.
  - simpl. tauto.
Defined.

(** ** The tensor given to the recogniser *)

Lemma scaled_pixel_range (v : Z) :
  0 <= v <= 255 -> (-1 <= inject_Z v / (255 # 2) - 1 <= 1)%Q.
Proof.
  intros [H0 H1]. rewrite Zle_Qle in H0, H1.
  change (inject_Z 0) with 0%Q in H0. change (inject_Z 255) with 255%Q in H1.
  assert (E : (inject_Z v / (255 # 2) == inject_Z v * (2 # 255))%Q) by field.
  rewrite E. split; lra.
Qed.

Lemma Forall_nth_default {A : Type} (P : A -> Prop) (l : list A) (d : A) (n : nat) :
  P d -> Forall P l -> P (nth n l d).
Proof.
  intros Hd Hl. destruct (nth_in_or_default n l d) as [Hin | ->]; [|done].
  by apply (proj1 (List.Forall_forall P l) Hl).
Qed.

(** X21: when the pixel values of the crop lie between 0 and 255, every
    entry of the tensor that [create_embedding] gives to the recogniser lies
    between -1 and 1. *)
Theorem prepare_crop_frame_range (crop_frame : list (list (list Z))) :
  Forall (Forall (Forall (fun v => 0 <= v <= 255))) crop_frame ->
  all_entries (fun x => (-1 <= x <= 1)%Q) (prepare_crop_frame crop_frame).
Proof.
  intros Hpixels. unfold all_entries, prepare_crop_frame, expand_dims_0.
  constructor; [|constructor].
  unfold transpose_2_0_1. apply List.Forall_map, List.Forall_forall.
  intros c _. apply List.Forall_map.
  unfold reverse_channels, scale_pixels.
  apply List.Forall_map, List.Forall_map.
  eapply Forall_impl; [|exact Hpixels]. intros row Hrow. cbn beta.
  apply List.Forall_map, List.Forall_map, List.Forall_map.
  eapply Forall_impl; [|exact Hrow]. intros pixel Hpixel. cbn beta.
  apply Forall_nth_default; [split; discriminate|].
  apply List.Forall_rev, List.Forall_map.
  eapply Forall_impl; [|exact Hpixel]. intros v Hv. by apply scaled_pixel_range.
Qed.

Lemma prepare_crop_frame_range_witness :
  all_entries (fun x => (-1 <= x <= 1)%Q)
    (prepare_crop_frame [[[0; 128; 255]; [10; 20; 30]]]).
Proof.
  apply prepare_crop_frame_range.
  repeat constructor; discriminate.
Defined.

Lemma map_lookup {A B : Type} (f : A -> B) (l : list A) (i : nat) :
  map f l !! i = f <$> (l !! i).
Proof.
  revert i. induction l as [|x l IH]; intros [|i]; simpl; done.
Qed.

Lemma has_shape_lookup {A : Type} (h w c : nat) (a : list (list (list A)))
  (i j : nat) :
  has_shape h w c a -> (i < h)%nat -> (j < w)%nat ->
  exists row pixel,
    a !! i = Some row /\ row !! j = Some pixel
    /\ length row = w /\ length pixel = c.
Proof.
  intros [Hh Hrows] Hi Hj.
  destruct (lookup_lt_is_Some_2 a i) as [row Hrow]; [lia|].
  pose proof (proj1 (List.Forall_forall _ a) Hrows row
                (proj1 (list_elem_of_In _ _) (list_elem_of_lookup_2 _ _ _ Hrow)))
    as [Hw Hpixels].
  destruct (lookup_lt_is_Some_2 row j) as [pixel Hpixel]; [lia|].
  pose proof (proj1 (List.Forall_forall _ row) Hpixels pixel
                (proj1 (list_elem_of_In _ _) (list_elem_of_lookup_2 _ _ _ Hpixel)))
    as Hc.
  by exists row, pixel.
Qed.

Lemma channels_of_prepared (h w c : nat) (crop_frame : list (list (list Z))) :
  has_shape h w c crop_frame -> (0 < h)%nat -> (0 < w)%nat ->
  channels_of (reverse_channels (scale_pixels crop_frame)) = c.
Proof.
  intros Hshape Hh Hw.
  destruct (has_shape_lookup _ _ _ _ 0 0 Hshape Hh Hw)
    as (row & pixel & Hrow & Hpixel & _ & Hc).
  destruct crop_frame as [|row' rows]; [done|]. injection Hrow as ->.
  destruct row as [|pixel' pixels]; [done|]. injection Hpixel as ->.
  simpl. by rewrite length_rev, length_map.
Qed.

(** X22: on a crop of shape (h, w, c) the tensor that [create_embedding]
    gives to the recogniser has one element, of shape (c, h, w), and its
    entry (k, i, j) is the scaled value of the channel c - 1 - k of the
    pixel (i, j) of the crop: the channels are reversed and come first. *)
Theorem prepare_crop_frame_layout (h w c : nat) (crop_frame : list (list (list Z)))
  (i j k : nat) :
  has_shape h w c crop_frame ->
  (i < h)%nat -> (j < w)%nat -> (k < c)%nat ->
  exists tensor row pixel v,
    prepare_crop_frame crop_frame = [tensor]
    /\ has_shape c h w tensor
    /\ crop_frame !! i = Some row
    /\ row !! j = Some pixel
    /\ pixel !! (c - 1 - k)%nat = Some v
    /\ entry tensor k i j = Some (inject_Z v / (255 # 2) - 1)%Q.
Proof.
  intros Hshape Hi Hj Hk.
  destruct (has_shape_lookup _ _ _ _ i j Hshape Hi Hj)
    as (row & pixel & Hrow & Hpixel & Hw & Hc).
  destruct (lookup_lt_is_Some_2 pixel (c - 1 - k)) as [v Hv]; [lia|].
  pose proof (channels_of_prepared _ _ _ _ Hshape ltac:(lia) ltac:(lia)) as Hchannels.
  eexists _, row, pixel, v.
  split; [reflexivity|]. split; [|split; [done|split; [done|split; [done|]]]].
  - unfold transpose_2_0_1. rewrite Hchannels. split.
    + by rewrite length_map, length_seq.
    + apply List.Forall_map, List.Forall_forall. intros k' _. cbn beta.
      destruct Hshape as [Hh Hrows]. split.
      * unfold reverse_channels, scale_pixels. by rewrite !length_map.
      * unfold reverse_channels, scale_pixels.
        apply List.Forall_map, List.Forall_map, List.Forall_map.
        eapply Forall_impl; [|exact Hrows]. intros r [Hr _]. cbn beta.
        by rewrite !length_map.
  - unfold entry, transpose_2_0_1. rewrite Hchannels.
    rewrite map_lookup, (lookup_seq_lt 0 c k Hk). cbn [fmap option_fmap option_map].
    unfold reverse_channels, scale_pixels.
    rewrite !map_lookup, Hrow. cbn [fmap option_fmap option_map].
    rewrite !map_lookup, Hpixel. cbn [fmap option_fmap option_map].
    f_equal.
    rewrite (nth_indep _ 0%Q (inject_Z 0 / (255 # 2) - 1)%Q)
      by (rewrite length_rev, length_map; lia).
    rewrite rev_nth by (rewrite length_map; lia).
    rewrite length_map.
    rewrite (map_nth (fun v => inject_Z v / (255 # 2) - 1)%Q pixel 0).
    f_equal. f_equal. f_equal.
    rewrite nth_lookup.
    replace (length pixel - S (0 + k))%nat with (c - 1 - k)%nat by lia.
    by rewrite Hv.
Qed.

Lemma prepare_crop_frame_layout_witness :
  exists tensor row pixel v,
    prepare_crop_frame [[[1; 2; 3]; [4; 5; 6]]] = [tensor]
    /\ has_shape 3 1 2 tensor
    /\ [[[1; 2; 3]; [4; 5; 6]]] !! 0%nat = Some row
    /\ row !! 1%nat = Some pixel
    /\ pixel !! (3 - 1 - 0)%nat = Some v
    /\ entry tensor 0 0 1 = Some (inject_Z v / (255 # 2) - 1)%Q.
Proof.
  apply (prepare_crop_frame_layout 1 2 3 [[[1; 2; 3]; [4; 5; 6]]] 0 1 0); try lia.
  split; [reflexivity|]. repeat constructor.
Defined.

(** ** The analyser handle, the download and the embedding *)

Lemma getitem_head {A : Type} (x : A) (l : list A) : getitem (x :: l) 0 = Ok x.
Proof. reflexivity. Qed.

Section RuntimeFacts.

Variable resolve_relative_path : string -> string.
Variable conditional_download : string -> list (option string) -> result unit.
Variable Detector : Type.
Variable Session : Type.
Variable FaceDetectorYN_create :
  option string -> option string -> nat * nat -> result Detector.
Variable InferenceSession : option string -> list string -> result Session.
Variable session_input_names : Session -> list string.
Variable session_run :
  Session -> string -> list (list (list (list Q))) -> result (list (list (list Q))).
Variable Matrix : Type.
Variable warp_face :
  Frame -> Kps -> string -> nat * nat -> result (list (list (list Z)) * Matrix).

Local Abbreviation model_value' := (model_value resolve_relative_path).
Local Abbreviation get_face_analyser' :=
  (get_face_analyser resolve_relative_path Detector Session
     FaceDetectorYN_create InferenceSession).
Local Abbreviation clear_face_analyser' := (clear_face_analyser Detector Session).
Local Abbreviation pre_check' :=
  (pre_check resolve_relative_path conditional_download Detector Session).
Local Abbreviation create_embedding' :=
  (create_embedding resolve_relative_path Detector Session
     FaceDetectorYN_create InferenceSession session_input_names session_run
     Matrix warp_face).

(** X23: once [get_face_analyser] has returned the analyser, a later call
    returns the same analyser and constructs nothing; the call that built it
    ran each constructor once. *)
Theorem get_face_analyser_once (s s1 : Runtime Detector Session)
  (analyser : Analyser Detector Session) :
  get_face_analyser' s = (Ok analyser, s1) ->
  get_face_analyser' s1 = (Ok analyser, s1)
  /\ (FACE_ANALYSER _ _ s = None ->
      detector_constructions _ _ s1 = S (detector_constructions _ _ s)
      /\ session_constructions _ _ s1 = S (session_constructions _ _ s))
  /\ (is_Some (FACE_ANALYSER _ _ s) -> s1 = s).
Proof.
  intros Hget. apply get_face_analyser_built in Hget as (Hset & Hnew & Hold).
  split; [|by split].
  unfold get_face_analyser. by rewrite Hset.
Qed.

(** X24: when [get_face_analyser] raises, no analyser is published, not even
    when the detector was built before the recogniser failed, and the next
    call constructs the detector again. *)
Theorem get_face_analyser_failure (s s1 : Runtime Detector Session) (e : exn) :
  get_face_analyser' s = (Raise e, s1) ->
  FACE_ANALYSER _ _ s = None
  /\ FACE_ANALYSER _ _ s1 = None
  /\ detector_constructions _ _ (get_face_analyser' s1).2
     = S (detector_constructions _ _ s1).
Proof.
  intros Hget.
  assert (Hnone : FACE_ANALYSER _ _ s = None /\ FACE_ANALYSER _ _ s1 = None).
  { unfold get_face_analyser in Hget.
    destruct (FACE_ANALYSER _ _ s) as [a|] eqn:Hs; [done|].
    destruct (model_value_paths resolve_relative_path) as [Hd Hr]. rewrite Hd, Hr in Hget.
    destruct (FaceDetectorYN_create _ _ _) as [detector|].
    - destruct (InferenceSession _ _) as [session|]; [done|].
      by injection Hget as _ <-.
    - by injection Hget as _ <-. }
  destruct Hnone as [Hs Hs1]. split; [done|]. split; [done|].
  unfold get_face_analyser. rewrite Hs1.
  destruct (model_value_paths resolve_relative_path) as [-> ->].
  destruct (FaceDetectorYN_create _ _ _) as [detector|]; [|done].
  by destruct (InferenceSession _ _).
Qed.

(** X25: [clear_face_analyser] always succeeds and empties the handle, so
    that the next [get_face_analyser] that returns has run both constructors
    again. *)
Theorem clear_face_analyser_rebuilds (s : Runtime Detector Session) :
  (clear_face_analyser' s).1 = Ok tt
  /\ FACE_ANALYSER _ _ (clear_face_analyser' s).2 = None
  /\ (forall analyser s1,
        get_face_analyser' (clear_face_analyser' s).2 = (Ok analyser, s1) ->
        detector_constructions _ _ s1 = S (detector_constructions _ _ s)
        /\ session_constructions _ _ s1 = S (session_constructions _ _ s)).
Proof.
  split; [done|]. split; [done|].
  intros analyser s1 Hget.
  apply get_face_analyser_built in Hget as (_ & Hnew & _).
  by apply Hnew.
Qed.

(** X26: [pre_check] never returns [False].  With [skip_download] set it
    downloads nothing; otherwise it asks once for the two model files, the
    recognition model first, and raises only what the download raises. *)
Theorem pre_check_downloads (s : Runtime Detector Session) :
  (forall b, (pre_check' s).1 = Ok b -> b = true)
  /\ (skip_download _ _ s = true -> pre_check' s = (Ok true, s))
  /\ (skip_download _ _ s = false ->
      (pre_check' s).2
      = log_download Detector Session
          (resolve_relative_path "../.assets/models")
          [Some "https://huggingface.co/bluefoxcreation/insightface-retinaface-arcface-model/resolve/main/w600k_r50.onnx";
           Some "https://github.com/opencv/opencv_zoo/raw/main/models/face_detection_yunet/face_detection_yunet_2023mar.onnx"]
          s
      /\ (pre_check' s).1
         = match conditional_download
                   (resolve_relative_path "../.assets/models")
                   [Some "https://huggingface.co/bluefoxcreation/insightface-retinaface-arcface-model/resolve/main/w600k_r50.onnx";
                    Some "https://github.com/opencv/opencv_zoo/raw/main/models/face_detection_yunet/face_detection_yunet_2023mar.onnx"]
           with
           | Ok _ => Ok true
           | Raise e => Raise e
           end).
Proof.
  unfold pre_check.
  change (model_value' "face_recognition_arcface" "url")
    with (@Ok (option string) (Some "https://huggingface.co/bluefoxcreation/insightface-retinaface-arcface-model/resolve/main/w600k_r50.onnx")).
  change (model_value' "face_detection_yunet" "url")
    with (@Ok (option string) (Some "https://github.com/opencv/opencv_zoo/raw/main/models/face_detection_yunet/face_detection_yunet_2023mar.onnx")).
  destruct (skip_download _ _ s); cbn [negb].
  - split; [by intros b [= <-]|]. by split.
  - split; [|split; [done|]].
    + destruct (conditional_download _ _); [by intros b [= <-] | done].
    + intros _. by destruct (conditional_download _ _).
Qed.

(** X27: [create_embedding] builds the analyser on first use: when it
    returns an embedding the analyser is published, and a second call on the
    same frame and landmarks returns the same embedding and constructs
    nothing. *)
Theorem create_embedding_reuses_analyser (temp_frame : Frame) (kps : Kps)
  (s s1 : Runtime Detector Session) (embedding : Embedding) :
  create_embedding' temp_frame kps s = (Ok embedding, s1) ->
  is_Some (FACE_ANALYSER _ _ s1)
  /\ create_embedding' temp_frame kps s1 = (Ok embedding, s1).
Proof.
  unfold create_embedding.
  destruct (get_face_analyser' s) as [[analyser|e] s'] eqn:Hget; [|done].
  intros [= Hrun <-].
  apply get_face_analyser_built in Hget as (Hset & _).
  split; [by eexists|].
  unfold get_face_analyser. rewrite Hset. by rewrite Hrun.
Qed.

End RuntimeFacts.

Lemma get_face_analyser_once_witness :
  get_face_analyser resolve_here nat nat detector_ok session_ok
    (get_face_analyser resolve_here nat nat detector_ok session_ok runtime0).2
  = (Ok (mkAnalyser nat nat 1%nat 2%nat),
     (get_face_analyser resolve_here nat nat detector_ok session_ok runtime0).2)
  /\ detector_constructions nat nat
       (get_face_analyser resolve_here nat nat detector_ok session_ok runtime0).2
     = 1%nat
  /\ session_constructions nat nat
       (get_face_analyser resolve_here nat nat detector_ok session_ok runtime0).2
     = 1%nat.
Proof.
  destruct (get_face_analyser_once resolve_here nat nat detector_ok session_ok
              runtime0 _ (mkAnalyser nat nat 1%nat 2%nat) eq_refl)
    as (Hagain & Hnew & _).
  split; [exact Hagain|]. by apply Hnew.
Defined.

Lemma get_face_analyser_failure_witness :
  FACE_ANALYSER nat nat
    (get_face_analyser resolve_here nat nat detector_ok session_fails runtime0).2
  = None
  /\ detector_constructions nat nat
       (get_face_analyser resolve_here nat nat detector_ok session_fails
          (get_face_analyser resolve_here nat nat detector_ok session_fails runtime0).2).2
     = 2%nat.
Proof.
  destruct (get_face_analyser_failure resolve_here nat nat detector_ok session_fails
              runtime0 _ RuntimeError eq_refl)
    as (_ & Hnone & Hretry).
  split; [exact Hnone | exact Hretry].
Defined.

Lemma clear_face_analyser_rebuilds_witness :
  detector_constructions nat nat
    (get_face_analyser resolve_here nat nat detector_ok session_ok
       (clear_face_analyser nat nat
          (get_face_analyser resolve_here nat nat detector_ok session_ok runtime0).2).2).2
  = 2%nat.
Proof.
  destruct (clear_face_analyser_rebuilds resolve_here nat nat detector_ok session_ok
              (get_face_analyser resolve_here nat nat detector_ok session_ok runtime0).2)
    as (_ & _ & Hrebuilt).
  destruct (Hrebuilt (mkAnalyser nat nat 1%nat 2%nat) _ eq_refl) as [Hdetector _].
  exact Hdetector.
Defined.

Lemma pre_check_downloads_witness :
  pre_check resolve_here download_ok nat nat runtime0
  = (Ok true,
     log_download nat nat "../.assets/models"
       [Some "https://huggingface.co/bluefoxcreation/insightface-retinaface-arcface-model/resolve/main/w600k_r50.onnx";
        Some "https://github.com/opencv/opencv_zoo/raw/main/models/face_detection_yunet/face_detection_yunet_2023mar.onnx"]
       runtime0).
Proof.
  destruct (pre_check_downloads resolve_here download_ok nat nat runtime0)
    as (_ & _ & Hdownload).
  destruct (Hdownload eq_refl) as [Hstate Hresult].
  rewrite (surjective_pairing (pre_check _ _ _ _ _)).
  by rewrite Hstate, Hresult.
Defined.

Lemma create_embedding_reuses_analyser_witness :
  create_embedding resolve_here nat nat detector_ok session_ok input_names run_fixed
    unit warp_fixed frame0 []
    (create_embedding resolve_here nat nat detector_ok session_ok input_names run_fixed
       unit warp_fixed frame0 [] runtime0).2
  = (Ok [3; 4; 0; 12]%Q,
     (create_embedding resolve_here nat nat detector_ok session_ok input_names run_fixed
        unit warp_fixed frame0 [] runtime0).2).
Proof.
  apply (create_embedding_reuses_analyser resolve_here nat nat detector_ok session_ok
           input_names run_fixed unit warp_fixed frame0 [] runtime0).
  reflexivity.
Defined.
